(** * The NXP USB device-mode controller driver of tamago, embedded in Rocq

    The development follows the Go sources of package [usb]
    ([soc/nxp/usb/setup.go], [soc/nxp/usb/device.go] and the endpoint file
    that holds [buildDTD], [checkDTD], [transfer], [tx], [rx], [ack],
    [stall] and [reset]).

    The driver talks to a DMA engine through memory that both sides mutate,
    and it busy-waits on register bits.  The embedding therefore threads an
    explicit machine state through every driver function:

    - [World] is what the controller and the other goroutines can change
      behind the driver's back: the byte-addressed memory that holds the
      registers and the DMA region, the cancellation channel [hw.done] and
      the wait-group counter of the endpoint tasks;
    - every polling loop of the driver calls [runtime.Gosched] between two
      reads; at that point the world advances by one [tick] of the platform;
    - a busy-wait without deadline may spin for ever: loops take a fuel, and
      the outcome [Spin] says that the fuel ran out before the loop left;
    - the machine keeps a trace of the driver's own actions (transfers
      entered, DMA blocks allocated and freed, endpoints primed, descriptor
      tokens read, endpoints stalled, handlers entered), so that ordering
      properties can be stated. *)

From Stdlib Require Import ZArith List Lia Bool.
From stdpp Require Import base gmap list.

Local Open Scope Z_scope.

(** ** Machine integers

    The target is GOARCH=arm: [int] and [uint] are 32 bits wide. *)

Definition u8 (x : Z) : Z := x mod 2 ^ 8.
Definition u16 (x : Z) : Z := x mod 2 ^ 16.
Definition u32 (x : Z) : Z := x mod 2 ^ 32.
Definition int (x : Z) : Z := (x + 2 ^ 31) mod 2 ^ 32 - 2 ^ 31.


(** [len] of a slice, as a Go [int]. *)
Definition len {A : Type} (l : list A) : Z := Z.of_nat (length l).

(** ** Package bits *)

Module bits.

(** Modelled from the spec: package [bits] is not among the sources.  The
    spec has the token and info words carry bit fields (byte count,
    interrupt-on-completion flag, active flag); the helpers below set,
    clear and read a field of a 32-bit word at a bit position. *)
Definition SetBit (w : Z) (pos : Z) : Z := u32 (Z.lor w (Z.shiftl 1 pos)).

(** Modelled from the spec: [bits.Clear] is not among the sources; it
    clears one bit of a 32-bit word. *)
Definition Clear (w : Z) (pos : Z) : Z :=
  u32 (Z.land w (Z.lnot (Z.shiftl 1 pos))).

(** Modelled from the spec: [bits.SetTo] is not among the sources; it
    sets or clears one bit, by a flag. *)
Definition SetTo (w : Z) (pos : Z) (val : bool) : Z :=
  if val then SetBit w pos else Clear w pos.

(** Modelled from the spec: [bits.SetN] is not among the sources; it
    writes a masked value into the field at a bit position. *)
Definition SetN (w : Z) (pos mask val : Z) : Z :=
  u32 (Z.lor (Z.land w (Z.lnot (Z.shiftl mask pos)))
             (Z.shiftl (Z.land val mask) pos)).

(** Modelled from the spec: [bits.Get] is not among the sources; it
    reads the masked field at a bit position. *)
Definition Get (w : Z) (pos mask : Z) : Z := Z.land (Z.shiftr w pos) mask.

End bits.

(** ** Memory shared with the controller *)

Definition load8 (m : gmap Z Z) (a : Z) : Z := default 0 (m !! a).

Fixpoint store (m : gmap Z Z) (a : Z) (bs : list Z) : gmap Z Z :=
  match bs with
  | [] => m
  | b :: bs' => store (<[a := u8 b]> m) (a + 1) bs'
  end.

Definition load (m : gmap Z Z) (a : Z) (n : nat) : list Z :=
  map (fun i => load8 m (a + Z.of_nat i)) (seq 0 n).

(** Little-endian 32-bit words, as [binary.LittleEndian] lays them out. *)
Definition le32 (v : Z) : list Z :=
  [u8 v; u8 (Z.shiftr v 8); u8 (Z.shiftr v 16); u8 (Z.shiftr v 24)].

Definition load32 (m : gmap Z Z) (a : Z) : Z :=
  load8 m a + load8 m (a + 1) * 2 ^ 8 + load8 m (a + 2) * 2 ^ 16
  + load8 m (a + 3) * 2 ^ 24.

Definition store32 (m : gmap Z Z) (a : Z) (v : Z) : gmap Z Z :=
  store m a (le32 v).

Definition load16 (m : gmap Z Z) (a : Z) : Z :=
  load8 m a + load8 m (a + 1) * 2 ^ 8.

(** ** World, machine and the driver monad *)

(** A Go channel that is only ever closed: [nil], open, or closed. *)
Inductive chan : Type := ChanNil | ChanOpen | ChanClosed.

Record World : Type := mkWorld {
  mem : gmap Z Z;      (* registers and DMA memory, byte addressed *)
  done : chan;         (* hw.done *)
  wg : nat             (* sync.WaitGroup counter of the endpoint tasks *)
}.

(** p276, Table 9-2. Format of Setup Data, USB2.0. *)
Record SetupData : Type := mkSetupData {
  RequestType : Z;  (* uint8 *)
  Request : Z;      (* uint8 *)
  Value : Z;        (* uint16 *)
  Index : Z;        (* uint16 *)
  Length : Z        (* uint16 *)
}.

Inductive Event : Type :=
| EvTransfer (n dir : Z) (ioc : bool) (buf : option (list Z))
| EvAlloc (addr size : Z)
| EvFree (addr : Z)
| EvPrime (pos : Z)
| EvToken (addr val : Z)
| EvStall (n dir : Z)
| EvStandard (s : SetupData)
| EvClassSpecific (s : SetupData)
| EvClose
| EvJoin.

Record Machine : Type := mkMachine {
  world : World;
  brk : Z;                 (* first free address of the DMA region *)
  defers : list Z;         (* DMA addresses whose Free is deferred *)
  clock : nat;             (* scheduler yields so far *)
  trace : list Event
}.

Inductive outcome (A : Type) : Type :=
| Done (a : A)
| Panic
| Spin.

Arguments Done {A} a.
Arguments Panic {A}.
Arguments Spin {A}.

(** A driver computation: given the fuel of its loops and the machine,
    it ends in an outcome and a machine. *)
Definition M (A : Type) : Type := nat -> Machine -> outcome A * Machine.

Definition ret {A : Type} (a : A) : M A := fun _ st => (Done a, st).

Definition bind {A B : Type} (c : M A) (k : A -> M B) : M B :=
  fun fuel st =>
    match c fuel st with
    | (Done a, st') => k a fuel st'
    | (Panic, st') => (Panic, st')
    | (Spin, st') => (Spin, st')
    end.

Definition panic {A : Type} : M A := fun _ st => (Panic, st).

Notation "'let*' x := c 'in' k" := (bind c (fun x => k))
  (at level 10, x pattern, c at level 200, k at level 200).

Definition gets {A : Type} (f : Machine -> A) : M A :=
  fun _ st => (Done (f st), st).

Definition modify (f : Machine -> Machine) : M unit :=
  fun _ st => (Done tt, f st).

Definition set_world (w : World) (st : Machine) : Machine :=
  mkMachine w (brk st) (defers st) (clock st) (trace st).

Definition set_mem (m : gmap Z Z) (st : Machine) : Machine :=
  set_world (mkWorld m (done (world st)) (wg (world st))) st.

Definition set_done (c : chan) (st : Machine) : Machine :=
  set_world (mkWorld (mem (world st)) c (wg (world st))) st.

Definition set_brk (b : Z) (st : Machine) : Machine :=
  mkMachine (world st) b (defers st) (clock st) (trace st).

Definition set_defers (d : list Z) (st : Machine) : Machine :=
  mkMachine (world st) (brk st) d (clock st) (trace st).

Definition emit (e : Event) : M unit :=
  modify (fun st =>
    mkMachine (world st) (brk st) (defers st) (clock st) (trace st ++ [e])).

(** The platform: what happens in the world while the driver yields, and
    how many yields of a polling loop fit in a duration (nanoseconds). *)
Class Platform : Type := {
  tick : World -> World;
  polls : Z -> nat
}.

Definition Millisecond : Z := 1000000.
Definition Second : Z := 1000 * Millisecond.

Section Runtime.
Context {P : Platform}.

(** [runtime.Gosched()]: the world moves on. *)
Definition yield (st : Machine) : Machine :=
  mkMachine (tick (world st)) (brk st) (defers st) (S (clock st)) (trace st).

Definition Gosched : M unit := modify yield.

(** [time.Sleep(d)]. *)
Definition Sleep (d : Z) : M unit :=
  modify (fun st => Nat.iter (polls d) yield st).

End Runtime.

(** ** Package reg *)

Module reg.
Section Reg.
Context {P : Platform}.

(** Modelled from the spec: of package [reg] only the 64-bit accessors are
    among the sources.  Registers are 32-bit little-endian words of the
    shared memory; [Wait] polls until a field has a value, [WaitFor] gives
    up at a deadline, [WaitSignal] gives up when the channel is closed
    (the spec's busy-wait register polling, bounded spin-with-deadline and
    cancellable wait).  Each poll that fails yields to the scheduler. *)
Definition Read (addr : Z) : M Z :=
  gets (fun st => load32 (mem (world st)) addr).

(** Modelled from the spec: [reg.Write] is not among the sources; it
    stores a 32-bit register. *)
Definition Write (addr val : Z) : M unit :=
  modify (fun st => set_mem (store32 (mem (world st)) addr val) st).

(** Modelled from the spec: [reg.Get] is not among the sources; it reads
    a field of a register. *)
Definition Get (addr pos mask : Z) : M Z :=
  let* r := Read addr in ret (bits.Get r pos mask).

(** Modelled from the spec: [reg.Set] is not among the sources; it sets
    one bit of a register (read, or, write). *)
Definition SetBit (addr pos : Z) : M unit :=
  let* r := Read addr in Write addr (bits.SetBit r pos).

(** Modelled from the spec: [reg.SetN] is not among the sources; it
    writes a field of a register (read, mask, write). *)
Definition SetN (addr pos mask val : Z) : M unit :=
  let* r := Read addr in Write addr (bits.SetN r pos mask val).

(** The condition that the waits poll: the field has the value. *)
Definition holds (addr pos mask val : Z) (st : Machine) : bool :=
  bits.Get (load32 (mem (world st)) addr) pos mask =? val.

(** Modelled from the spec: [reg.Wait] is not among the sources; it
    polls without deadline, yielding after each failed poll. *)
Fixpoint Wait (addr pos mask val : Z) (fuel : nat) (st : Machine)
  {struct fuel} : outcome unit * Machine :=
  if holds addr pos mask val st then (Done tt, st)
  else match fuel with
       | O => (Spin, st)
       | S f => Wait addr pos mask val f (yield st)
       end.

(** Modelled from the spec: [reg.WaitFor] is not among the sources; it
    polls until the deadline, which the yield after the [k]-th failed poll
    is the first to reach, and tells whether the field got the value. *)
Fixpoint WaitFor_loop (k : nat) (addr pos mask val : Z) (st : Machine)
  {struct k} : bool * Machine :=
  if holds addr pos mask val st then (true, st)
  else match k with
       | O => (false, yield st)
       | S k' => WaitFor_loop k' addr pos mask val (yield st)
       end.

Definition WaitFor (timeout : Z) (addr pos mask val : Z) : M bool :=
  fun _ st =>
    let (b, st') := WaitFor_loop (polls timeout) addr pos mask val st in
    (Done b, st').

(** Modelled from the spec: [reg.WaitSignal] is not among the sources;
    it polls until the field has the value or, after a yield, the channel
    [hw.done] is found closed. *)
Fixpoint WaitSignal (addr pos mask val : Z) (fuel : nat) (st : Machine)
  {struct fuel} : outcome bool * Machine :=
  if holds addr pos mask val st then (Done true, st)
  else match fuel with
       | O => (Spin, st)
       | S f =>
           let st' := yield st in
           match done (world st') with
           | ChanClosed => (Done false, st')
           | _ => WaitSignal addr pos mask val f st'
           end
       end.

End Reg.
End reg.

(** ** Package dma *)

Module dma.

Definition align_up (a align : Z) : Z :=
  if align <=? 0 then a else (a + align - 1) / align * align.

(** Modelled from the spec: package [dma] is not among the sources.
    [Alloc] reserves a fresh aligned block of the DMA region, copies the
    buffer into it and returns its address; [Free] releases a block;
    [Read] copies bytes of the region out. *)
Definition Alloc (buf : list Z) (align : Z) : M Z :=
  fun _ st =>
    let a := u32 (align_up (brk st) align) in
    (Done a,
     mkMachine
       (mkWorld (store (mem (world st)) a buf) (done (world st))
                (wg (world st)))
       (a + len buf) (defers st) (clock st)
       (trace st ++ [EvAlloc a (len buf)])).

(** Modelled from the spec: [dma.Free] is not among the sources; it
    releases a block. *)
Definition Free (addr : Z) : M unit := emit (EvFree addr).

(** Modelled from the spec: [dma.Read] is not among the sources; it
    copies [n] bytes of the region, from an offset of a block, out. *)
Definition Read (addr off : Z) (n : nat) : M (list Z) :=
  gets (fun st => load (mem (world st)) (addr + off) n).

End dma.

(** ** Deferred calls

    [transfer] defers every [dma.Free]; the deferred calls run, last
    registered first, when the function returns or panics, and never if it
    does not return. *)

Definition defer_Free (addr : Z) : M unit :=
  modify (fun st => set_defers (addr :: defers st) st).

Definition run_defers (fuel : nat) (st : Machine) : Machine :=
  set_defers []
    (fold_left (fun s a => snd (dma.Free a fuel s)) (defers st) st).

Definition with_defers {A : Type} (body : M A) : M A :=
  fun fuel st =>
    let saved := defers st in
    match body fuel (set_defers [] st) with
    | (Spin, st') => (Spin, st')
    | (r, st') => (r, set_defers saved (run_defers fuel st'))
    end.

(** ** Package usb: constants and types *)

(** Endpoint constants. *)
Definition MAX_ENDPOINTS : Z := 8.
Definition OUT : Z := 0.
Definition IN : Z := 1.

Definition DQH_SIZE : Z := 64.
Definition DQH_NEXT : Z := 8.
Definition DQH_TOKEN : Z := 12.
(* offset of the Setup field in a dQH: after Info, Current, Next, Token,
   Buffer[5] and one reserved word *)
Definition DQH_SETUP : Z := 40.

Definition DTD_ALIGN : Z := 32.
Definition DTD_SIZE : Z := 28.
Definition DTD_PAGES : Z := 5.
Definition DTD_PAGE_SIZE : Z := 4096.
Definition DTD_NEXT : Z := 0.
Definition DTD_TOKEN : Z := 4.
Definition TOKEN_TOTAL : Z := 16.
Definition TOKEN_IOC : Z := 15.
Definition TOKEN_MULTO : Z := 10.
Definition TOKEN_ACTIVE : Z := 7.

(** Standard request codes (p279, Table 9-4, USB2.0). *)
Definition GET_STATUS : Z := 0.
Definition CLEAR_FEATURE : Z := 1.
Definition SET_FEATURE : Z := 3.
Definition SET_ADDRESS : Z := 5.
Definition GET_DESCRIPTOR : Z := 6.
Definition SET_DESCRIPTOR : Z := 7.
Definition GET_CONFIGURATION : Z := 8.
Definition SET_CONFIGURATION : Z := 9.
Definition GET_INTERFACE : Z := 10.
Definition SET_INTERFACE : Z := 11.
Definition SYNCH_FRAME : Z := 12.
Definition HID_SET_IDLE : Z := 0x0a.

(** Descriptor types (p279, Table 9-5, USB2.0). *)
Definition DEVICE : Z := 1.
Definition CONFIGURATION : Z := 2.
Definition STRING : Z := 3.
Definition DEVICE_QUALIFIER : Z := 6.
Definition HID_REPORT : Z := 0x22.

(** Standard feature selectors (p280, Table 9-6, USB2.0). *)
Definition ENDPOINT_HALT : Z := 0.

(** Register bit positions and the vendor request code that the sources
    use but do not declare. *)
Class Consts : Type := {
  ENDPTCTRL_TXS : Z;
  ENDPTCTRL_RXS : Z;
  ENDPTCTRL_TXR : Z;
  ENDPTCTRL_RXR : Z;
  ENDPTFLUSH_FETB : Z;
  ENDPTFLUSH_FERB : Z;
  DEVICEADDR_USBADRA : Z;
  DEVICEADDR_USBADR : Z;
  USBSTS_URI : Z;
  SET_ETHERNET_PACKET_FILTER : Z
}.

(** The controller instance: the addresses of its registers and of the
    queue heads ([hw.dQH[n][dir]]).  [hw.done] lives in the world. *)
Record USB : Type := mkUSB {
  hw_sts : Z;
  hw_addr : Z;
  hw_setup : Z;
  hw_flush : Z;
  hw_prime : Z;
  hw_stat : Z;
  hw_complete : Z;
  hw_epctrl : Z;
  hw_dQH : list (list Z)
}.

Inductive error : Type :=
| ErrInvalidStringIndex (index : Z)
| ErrUnsupportedDescriptorType (t : Z)
| ErrUnsupportedRequest (r : Z)
| ErrTimeout
| ErrStatus (i token : Z)
| ErrPartial (i n size : Z)
| ErrCaller (code : Z).

Definition is_Some_err (e : option error) : bool :=
  match e with Some _ => true | None => false end.

(** The device model the caller owns: descriptors are byte blobs. *)
Record Device : Type := mkDevice {
  Descriptor : list Z;                       (* dev.Descriptor.Bytes() *)
  Configuration : Z -> list Z + error;       (* dev.Configuration(index) *)
  Strings : list (list Z);
  Qualifier : list Z;                        (* dev.Qualifier.Bytes() *)
  ConfigurationValue : Z;
  AlternateSetting : Z;
  Setup : option (SetupData -> list Z * bool * bool * option error)
}.

Definition set_ConfigurationValue (v : Z) (dev : Device) : Device :=
  mkDevice (Descriptor dev) (Configuration dev) (Strings dev) (Qualifier dev)
           v (AlternateSetting dev) (Setup dev).

Definition set_AlternateSetting (v : Z) (dev : Device) : Device :=
  mkDevice (Descriptor dev) (Configuration dev) (Strings dev) (Qualifier dev)
           (ConfigurationValue dev) v (Setup dev).

(** dTD implements
    p3787, 56.4.5.2 Endpoint Transfer Descriptor (dTD), IMX6ULLRM. *)
Record dTD : Type := mkDTD {
  Next : Z;
  Token : Z;
  Buffer : list Z;
  _dtd : Z;     (* DMA pointer for dTD structure *)
  _buf : Z;     (* DMA pointer for dTD transfer buffer *)
  _size : Z     (* transfer buffer size *)
}.

(** ** The transfer engine *)

Section Engine.
Context {P : Platform} {K : Consts}.

(** [hw.dQH[n][dir]]: an index out of range panics. *)
Definition dQH (hw : USB) (n dir : Z) : M Z :=
  if (n <? 0) || (dir <? 0) then panic
  else match hw_dQH hw !! Z.to_nat n with
       | Some row =>
           match row !! Z.to_nat dir with
           | Some a => ret a
           | None => panic
           end
       | None => panic
       end.

(** clear resets the endpoint status (active and halt bits) *)
Definition clear (hw : USB) (n dir : Z) : M unit :=
  let* q := dQH hw n dir in
  let token := u32 (q + DQH_TOKEN) in
  reg.SetN token 6 3 0.

(** nextDTD sets the next endpoint transfer pointer *)
Definition nextDTD (hw : USB) (n dir : Z) (dtd : Z) : M unit :=
  let* dqh := dQH hw n dir in
  let next := u32 (dqh + DQH_NEXT) in
  (* wait for endpoint status to be cleared *)
  let* _ := reg.Wait (u32 (dqh + DQH_TOKEN)) 6 3 0 in
  (* set next dTD *)
  reg.Write next dtd.

(** buildDTD configures an endpoint transfer descriptor as described in
    p3787, 56.4.5.2 Endpoint Transfer Descriptor (dTD), IMX6ULLRM. *)
Definition buildDTD (n dir : Z) (ioc : bool) (addr : Z) (size : Z) : M dTD :=
  (* interrupt on completion (ioc) *)
  let token := bits.SetTo 0 TOKEN_IOC ioc in
  (* invalidate next pointer *)
  let next := 1 in
  (* multiplier override (MultO) *)
  let token := bits.SetN token TOKEN_MULTO 3 0 in
  (* active status *)
  let token := bits.SetBit token TOKEN_ACTIVE in
  (* total bytes *)
  let token := bits.SetN token TOKEN_TOTAL 0xffff (u32 size) in
  let buf := addr in
  let buffer :=
    map (fun n => u32 (buf + DTD_PAGE_SIZE * u32 n)) [0; 1; 2; 3; 4] in
  (* skip internal DMA buffer pointers *)
  let bytes := le32 next ++ le32 token ++ concat (map le32 buffer) in
  let* a := dma.Alloc bytes DTD_ALIGN in
  ret (mkDTD next token buffer (u32 a) buf (u32 size)).

(** The wait of [checkDTD] for the active bit of one descriptor. *)
Definition await_inactive (n : Z) (token : Z) : M unit :=
  (* Wait indefinitely for active bit to be cleared. *)
  if n =? 0 then
    let* _ := reg.WaitFor Second token TOKEN_ACTIVE 1 0 in
    reg.Wait token TOKEN_ACTIVE 1 0
  else
    let* _ := reg.WaitSignal token TOKEN_ACTIVE 1 0 in
    ret tt.

(** checkDTD verifies transfer descriptor completion as describe in
    p3800, 56.4.6.4.1 Interrupt/Bulk Endpoint Operational Model, IMX6ULLRM
    p3811, 56.4.6.6.4 Transfer Completion, IMX6ULLRM. *)
Fixpoint checkDTD_from (n dir : Z) (i : Z) (dtds : list dTD) (size : Z)
  : M (Z * option error) :=
  match dtds with
  | [] => ret (size, None)
  | dtd :: rest_dtds =>
      (* treat dtd.token as a register within the dtd DMA buffer *)
      let token := u32 (_dtd dtd + DTD_TOKEN) in
      let* _ := await_inactive n token in
      let* dtdToken := reg.Read token in
      let* _ := emit (EvToken token dtdToken) in
      if negb (Z.land dtdToken 0xff =? 0) then
        ret (0, Some (ErrStatus i dtdToken))
      else
        (* p3787 "This field is decremented by the number of bytes
           actually moved during the transaction", IMX6ULLRM. *)
        let rest := Z.shiftr dtdToken TOKEN_TOTAL in
        let n' := int (u32 (_size dtd - rest)) in
        if (dir =? IN) && (rest >? 0) then
          ret (0, Some (ErrPartial i n' (_size dtd)))
        else
          checkDTD_from n dir (i + 1) rest_dtds (int (size + n'))
  end.

Definition checkDTD (n dir : Z) (dtds : list dTD) : M (Z * option error) :=
  checkDTD_from n dir 0 dtds 0.

Definition dtdLength : Z := DTD_PAGES * DTD_PAGE_SIZE.

(** [buf[0:size]] *)
Definition slice_to {A : Type} (buf : list A) (size : Z) : M (list A) :=
  if (size <? 0) || (len buf <? size) then panic
  else ret (firstn (Z.to_nat size) buf).

(** The size of the chunk that starts at offset [i]. *)
Definition chunk (transferSize i : Z) : Z :=
  let size := dtdLength in
  if int (i + size) >? transferSize then int (transferSize - i) else size.

(** One turn of the descriptor loop of [transfer]: build the descriptor of
    the chunk at [i], link it to its predecessor and prime it if need be. *)
Definition transfer_step (hw : USB) (n dir : Z) (ioc : bool) (pages : Z)
  (transferSize pos : Z) (i : Z) (prev : option dTD) : M dTD :=
  let size := chunk transferSize i in
  let* dtd := buildDTD n dir ioc (u32 (u32 pages + u32 i)) size in
  let* _ := defer_Free (_dtd dtd) in
  let* prime :=
    (if i =? 0 then ret true
     else
       match prev with
       | None => panic
       | Some prev =>
           (* treat dtd.next as a register within the dtd DMA buffer *)
           let* _ := reg.Write (u32 (_dtd prev + DTD_NEXT)) (_dtd dtd) in
           let* p := reg.Get (hw_prime hw) pos 1 in
           if p =? 0 then
             let* s := reg.Get (hw_stat hw) pos 1 in ret (s =? 0)
           else ret false
       end) in
  let* _ :=
    (if prime : bool then
       (* reset endpoint status *)
       let* _ := clear hw n dir in
       (* set dQH head pointer *)
       let* _ := nextDTD hw n dir (_dtd dtd) in
       (* prime endpoint *)
       let* _ := reg.SetBit (hw_prime hw) pos in
       emit (EvPrime pos)
     else ret tt) in
  ret dtd.

(** The descriptor loop of [transfer]:
    [for add := true; add; add = i < transferSize]. *)
Fixpoint transfer_loop (hw : USB) (n dir : Z) (ioc : bool) (pages : Z)
  (transferSize pos : Z) (i : Z) (prev : option dTD) (dtds : list dTD)
  (fuel : nat) (st : Machine) {struct fuel} : outcome (list dTD) * Machine :=
  (let* dtd := transfer_step hw n dir ioc pages transferSize pos i prev in
   let dtds := dtds ++ [dtd] in
   let i := int (i + dtdLength) in
   if i <? transferSize then
     fun _ st' =>
       match fuel with
       | O => (Spin, st')
       | S f =>
           transfer_loop hw n dir ioc pages transferSize pos i (Some dtd)
                         dtds f st'
       end
   else ret dtds) fuel st.

(** The wait of [transfer] for the completion bit. *)
Definition await_completion (hw : USB) (n pos : Z) : M (option error) :=
  if n =? 0 then
    let* complete :=
      reg.WaitFor (20 * Millisecond) (hw_complete hw) pos 1 1 in
    if complete : bool then ret None else ret (Some ErrTimeout)
  else
    let* _ := reg.WaitSignal (hw_complete hw) pos 1 1 in
    ret None.

(** The end of [transfer]: the copy into the caller's buffer. *)
Definition copy_out (n dir : Z) (caller buf : option (list Z)) (pages : Z)
  (size : Z) (err : option error)
  : M (option (list Z) * option error * option (list Z)) :=
  if negb (n =? 0) && (dir =? OUT) then
    match buf with
    | Some b =>
        let* out := slice_to b size in
        let* out := dma.Read pages 0 (length out) in
        let after :=
          match caller with
          | Some c => Some (out ++ skipn (length out) c)
          | None => None
          end in
        ret (Some out, err, after)
    | None => ret (None, err, caller)
    end
  else ret (None, err, caller).

(** transfer initates a transfer using transfer descriptors (dTDs) as
    described in p3810, 56.4.6.6.3 Executing A Transfer Descriptor,
    IMX6ULLRM.  The result is [out], [err] and the caller's buffer as the
    call leaves it ([out] aliases its first bytes). *)
Definition transfer_body (hw : USB) (n dir : Z) (ioc : bool)
  (buf : option (list Z))
  : M (option (list Z) * option error * option (list Z)) :=
  let* _ := emit (EvTransfer n dir ioc buf) in
  let caller := buf in
  (* hw.prime IN:ENDPTPRIME_PETB+n    OUT:ENDPTPRIME_PERB+n
     hw.pos   IN:ENDPTCOMPLETE_ETCE+n OUT:ENDPTCOMPLETE_ERCE+n *)
  let pos := int (int (dir * 16) + n) in
  let buf :=
    match buf with
    | None =>
        if dir =? OUT then Some (repeat 0 (Z.to_nat dtdLength)) else None
    | Some b => Some b
    end in
  let bytes := default [] buf in
  let transferSize := len bytes in
  let* pages := dma.Alloc bytes DTD_PAGE_SIZE in
  let* _ := defer_Free pages in
  (* loop condition to account for zero transferSize *)
  let* dtds :=
    transfer_loop hw n dir ioc pages transferSize pos 0 None [] in
  (* wait for priming completion *)
  let* _ := reg.Wait (hw_prime hw) pos 1 0 in
  (* wait for completion *)
  let* err := await_completion hw n pos in
  (* clear completion *)
  let* _ := reg.Write (hw_complete hw) (u32 (Z.shiftl 1 pos)) in
  (* [size, err := checkDTD(...)] assigns the result [err] again *)
  let* (size, err) := checkDTD n dir dtds in
  copy_out n dir caller buf pages size err.

Definition transfer (hw : USB) (n dir : Z) (ioc : bool)
  (buf : option (list Z))
  : M (option (list Z) * option error * option (list Z)) :=
  with_defers (transfer_body hw n dir ioc buf).

(** ack transmits a zero length packet to the host through an IN endpoint *)
Definition ack (hw : USB) (n : Z) : M (option error) :=
  let* (_, err, _) := transfer hw n IN false None in
  ret err.

(** tx transmits a data buffer to the host through an IN endpoint *)
Definition tx (hw : USB) (n : Z) (ioc : bool) (data : option (list Z))
  : M (option error) :=
  let* (_, err, _) := transfer hw n IN ioc data in
  (* p3803, 56.4.6.4.2.3 Status Phase, IMX6ULLRM *)
  match err with
  | None =>
      if n =? 0 then
        let* (_, err, _) := transfer hw n OUT false None in
        ret err
      else ret err
  | Some _ => ret err
  end.


(** stall forces the endpoint to return a STALL handshake to the host *)
Definition stall (hw : USB) (n dir : Z) : M unit :=
  let* _ := emit (EvStall n dir) in
  let ctrl := u32 (hw_epctrl hw + u32 (4 * n)) in
  if dir =? IN then reg.SetBit ctrl ENDPTCTRL_TXS
  else reg.SetBit ctrl ENDPTCTRL_RXS.

(** reset forces data PID synchronization between host and device *)
Definition reset (hw : USB) (n dir : Z) : M unit :=
  if n =? 0 then
    (* EP0 does not have data toggle reset *)
    ret tt
  else
    let ctrl := u32 (hw_epctrl hw + u32 (4 * n)) in
    if dir =? IN then reg.SetBit ctrl ENDPTCTRL_TXR
    else reg.SetBit ctrl ENDPTCTRL_RXR.

End Engine.

(** ** The setup dispatcher (setup.go) *)

Module QH.
(** dQH implements
    p3784, 56.4.5.1 Endpoint Queue Head (dQH), IMX6ULLRM. *)
Record t : Type := mk {
  Info : Z;
  Current : Z;
  Next : Z;
  Token : Z;
  Buffer : list Z;
  Setup : SetupData
}.
End QH.

(** swap adjusts the endianness of values written in memory by the
    hardware, as they do not match the expected one by Go. *)
Definition swap (s : SetupData) : SetupData :=
  (* binary.BigEndian.PutUint16(b, s.Value) *)
  let b0 := u8 (Z.shiftr (Value s) 8) in
  let b1 := u8 (Value s) in
  (* s.Value = binary.LittleEndian.Uint16(b) *)
  mkSetupData (RequestType s) (Request s) (Z.lor b0 (Z.shiftl b1 8))
              (Index s) (Length s).

Definition trim (buf : list Z) (wLength : Z) : list Z :=
  if wLength <? len buf then firstn (Z.to_nat wLength) buf else buf.

(** The bytes that [hex.DecodeString] yields for the report descriptor
    written out in [getDescriptor]. *)
Definition hidReport : list Z :=
  [
   0x05; 0x01; 0x09; 0x06; 0xa1; 0x01; 0x05; 0x07; 0x19; 0xe0; 0x29; 0xe7;
   0x15; 0x00; 0x25; 0x01; 0x75; 0x01; 0x95; 0x08; 0x81; 0x02; 0x95; 0x01;
   0x75; 0x08; 0x81; 0x03; 0x95; 0x03; 0x75; 0x01; 0x05; 0x08; 0x19; 0x01;
   0x29; 0x03; 0x91; 0x02; 0x95; 0x01; 0x75; 0x05; 0x91; 0x03; 0x95; 0x06;
   0x75; 0x08; 0x15; 0x00; 0x26; 0xa4; 0x00; 0x05; 0x07; 0x19; 0x00; 0x29;
   0xa4; 0x81; 0x00; 0xc0
  ].

Section Dispatcher.
Context {P : Platform} {K : Consts}.

(** qh returns the Endpoint Queue Head (dQH) *)
Definition qh (hw : USB) (n dir : Z) : M QH.t :=
  let* a := dQH hw n dir in
  let* buf := dma.Read a 0 (Z.to_nat DQH_SIZE) in
  let m := store ∅ 0 buf in
  ret (QH.mk (load32 m 0) (load32 m 4) (load32 m 8) (load32 m 12)
             (map (load32 m) [16; 20; 24; 28; 32])
             (mkSetupData (load8 m DQH_SETUP) (load8 m (DQH_SETUP + 1))
                          (load16 m (DQH_SETUP + 2))
                          (load16 m (DQH_SETUP + 4))
                          (load16 m (DQH_SETUP + 6)))).

Definition getSetup (hw : USB) : M SetupData :=
  (* p3801, 56.4.6.4.2.1 Setup Phase, IMX6ULLRM *)
  (* clear setup status *)
  let* _ := reg.SetBit (hw_setup hw) 0 in
  (* flush EP0 IN *)
  let* _ := reg.SetBit (hw_flush hw) (ENDPTFLUSH_FETB + 0) in
  (* flush EP0 OUT *)
  let* _ := reg.SetBit (hw_flush hw) (ENDPTFLUSH_FERB + 0) in
  let* q := qh hw 0 OUT in
  ret (swap (QH.Setup q)).

Definition getDescriptor (hw : USB) (dev : Device) (setup : SetupData)
  : M (option error) :=
  let bDescriptorType := Z.land (Value setup) 0xff in
  let index := Z.shiftr (Value setup) 8 in
  if bDescriptorType =? DEVICE then
    tx hw 0 false (Some (trim (Descriptor dev) (Length setup)))
  else if bDescriptorType =? CONFIGURATION then
    match Configuration dev index with
    | inl conf => tx hw 0 false (Some (trim conf (Length setup)))
    | inr e => ret (Some e)
    end
  else if bDescriptorType =? STRING then
    if int (u16 (index + 1)) >? len (Strings dev) then
      let* _ := stall hw 0 IN in
      ret (Some (ErrInvalidStringIndex index))
    else
      match Strings dev !! Z.to_nat index with
      | Some s => tx hw 0 false (Some (trim s (Length setup)))
      | None => panic
      end
  else if bDescriptorType =? DEVICE_QUALIFIER then
    tx hw 0 false (Some (Qualifier dev))
  else if bDescriptorType =? HID_REPORT then
    tx hw 0 false (Some (trim hidReport (Length setup)))
  else
    let* _ := stall hw 0 IN in
    ret (Some (ErrUnsupportedDescriptorType bDescriptorType)).

Definition handleStandardSetup (hw : USB) (dev : Device) (setup : SetupData)
  : M (Device * option error) :=
  let* _ := emit (EvStandard setup) in
  let request := Request setup in
  if request =? GET_STATUS then
    (* no meaningful status to report for now *)
    let* err := tx hw 0 false (Some [0x00; 0x00]) in ret (dev, err)
  else if request =? CLEAR_FEATURE then
    if Value setup =? ENDPOINT_HALT then
      let n := int (Z.land (Index setup) 15) in
      let dir := int (Z.land (Index setup) 128) / 128 in
      let* _ := reset hw n dir in
      let* err := ack hw 0 in ret (dev, err)
    else
      let* _ := stall hw 0 IN in ret (dev, None)
  else if request =? SET_ADDRESS then
    let addr :=
      u32 (Z.lor (Z.land (u16 (Z.shiftl (Value setup) 8)) 0xff00)
                 (Z.shiftr (Value setup) 8)) in
    let* _ := reg.SetBit (hw_addr hw) DEVICEADDR_USBADRA in
    let* _ := reg.SetN (hw_addr hw) DEVICEADDR_USBADR 0x7f addr in
    let* err := ack hw 0 in ret (dev, err)
  else if request =? GET_DESCRIPTOR then
    let* err := getDescriptor hw dev setup in ret (dev, err)
  else if request =? GET_CONFIGURATION then
    let* err := tx hw 0 false (Some [ConfigurationValue dev]) in
    ret (dev, err)
  else if request =? SET_CONFIGURATION then
    let dev := set_ConfigurationValue (u8 (Z.shiftr (Value setup) 8)) dev in
    let* err := ack hw 0 in ret (dev, err)
  else if request =? GET_INTERFACE then
    let* err := tx hw 0 false (Some [AlternateSetting dev]) in
    ret (dev, err)
  else if request =? SET_INTERFACE then
    let dev := set_AlternateSetting (u8 (Z.shiftr (Value setup) 8)) dev in
    let* err := ack hw 0 in ret (dev, err)
  else if request =? SET_ETHERNET_PACKET_FILTER then
    (* no meaningful action for now *)
    let* err := ack hw 0 in ret (dev, err)
  else
    let* _ := stall hw 0 IN in
    ret (dev, Some (ErrUnsupportedRequest request)).

Definition handleClassSpecificSetup (hw : USB) (dev : Device)
  (setup : SetupData) : M (option error) :=
  let* _ := emit (EvClassSpecific setup) in
  (* I only care about HID Setup Requests for now *)
  if Request setup =? HID_SET_IDLE then ack hw 0
  else
    let* _ := stall hw 0 IN in
    ret (Some (ErrUnsupportedRequest (Request setup))).

(** The consultation of the caller's [dev.Setup] in [handleSetup]: [inl]
    is an early [return err], [inr] falls through to the dispatch. *)
Definition consult (hw : USB) (dev : Device) (setup : SetupData)
  : M (option error + unit) :=
  match Setup dev with
  | Some f =>
      let '(in_, ack_, done_, err) := f setup in
      match err with
      | Some e =>
          let* _ := stall hw 0 IN in ret (inl (Some e))
      | None =>
          let* err :=
            (if negb (len in_ =? 0) then tx hw 0 false (Some in_)
             else if ack_ : bool then ack hw 0
             else ret None) in
          if (done_ : bool) || is_Some_err err
          then ret (inl err) else ret (inr tt)
      end
  | None => ret (inr tt)
  end.

Definition handleSetup (hw : USB) (dev : Device) (setup : option SetupData)
  : M (Device * option error) :=
  match setup with
  | None => ret (dev, None)
  | Some setup =>
      let* r := consult hw dev setup in
      match r with
      | inl err => ret (dev, err)
      | inr _ =>
          let* _ := Sleep (100 * Millisecond) in
          if RequestType setup =? 0x21 then
            (* the handler's result is dropped *)
            let* _ := handleClassSpecificSetup hw dev setup in
            ret (dev, None)
          else
            let* (dev, _) := handleStandardSetup hw dev setup in
            ret (dev, None)
      end
  end.

End Dispatcher.

(** ** The device-mode loop (device.go) *)

Section Loop.
Context {P : Platform} {K : Consts}.

(** [hw.Reset] and [hw.startEndpoints] are called by [Start] and are not
    among the sources. *)
Variable Reset : USB -> M unit.
Variable startEndpoints : USB -> Device -> Z -> M unit.

(** [close(hw.done)] *)
Definition close_done : M unit :=
  let* c := gets (fun st => done (world st)) in
  match c with
  | ChanOpen =>
      let* _ := modify (set_done ChanClosed) in emit EvClose
  | _ => panic
  end.

(** [wg.Wait()] *)
Fixpoint wg_Wait (fuel : nat) (st : Machine) {struct fuel}
  : outcome unit * Machine :=
  if Nat.eqb (wg (world st)) 0 then emit EvJoin fuel st
  else match fuel with
       | O => (Spin, st)
       | S f => wg_Wait f (yield st)
       end.

(** The part of the loop body of [Start] that follows [handleSetup]: it
    yields the value of [conf] for the next iteration. *)
Definition reload (hw : USB) (dev : Device) (conf : Z) : M Z :=
  (* check if configuration reload is required *)
  if ConfigurationValue dev =? conf then ret conf
  else
    (* Host has chosen a configuration from dev.Configurations
       Save choice to start endpoints from this config *)
    let conf := ConfigurationValue dev in
    (* stop configuration endpoints *)
    let* c := gets (fun st => done (world st)) in
    let* _ :=
      match c with
      | ChanNil => ret tt
      | _ => let* _ := close_done in wg_Wait
      end in
    (* start configuration endpoints *)
    let* _ := startEndpoints hw dev conf in
    ret conf.

(** One turn of the loop of [Start]. *)
Definition Start_body (hw : USB) (dev : Device) (conf : Z) : M (Device * Z) :=
  (* check for bus reset *)
  let* uri := reg.Get (hw_sts hw) USBSTS_URI 1 in
  let* (dev, conf) :=
    (if uri =? 1 then
       (* set inactive configuration *)
       let conf := 0 in
       let dev := set_ConfigurationValue 0 dev in
       (* perform controller reset procedure *)
       let* _ := Reset hw in ret (dev, conf)
     else ret (dev, conf)) in
  (* wait for a setup packet *)
  let* arrived := reg.WaitFor (10 * Millisecond) (hw_setup hw) 0 1 1 in
  if negb arrived then ret (dev, conf)
  else
    (* handle setup packet *)
    let* s := getSetup hw in
    let* (dev, _) := handleSetup hw dev (Some s) in
    let* conf := reload hw dev conf in
    ret (dev, conf).

(** Start waits and handles configured USB endpoints in device mode, it
    should never return. *)
Fixpoint Start_from (hw : USB) (dev : Device) (conf : Z) (fuel : nat)
  (st : Machine) {struct fuel} : outcome unit * Machine :=
  match fuel with
  | O => (Spin, st)
  | S f =>
      match Start_body hw dev conf (S f) st with
      | (Done (dev', conf'), st') => Start_from hw dev' conf' f st'
      | (Panic, st') => (Panic, st')
      | (Spin, st') => (Spin, st')
      end
  end.

Definition Start (hw : USB) (dev : Device) : M unit :=
  Start_from hw dev 0.

End Loop.

(** ** A simulated controller

    A small device controller and host, used to run the driver on concrete
    inputs.  When an endpoint is primed the controller takes the descriptor
    chain the queue head points to, retires its descriptors and raises the
    completion bit; its behaviour says how. *)

Module sim.

Definition base : Z := 0x02184000.
Definition eplist : Z := 0x00900000.

Definition hw : USB :=
  mkUSB (base + 0x144) (base + 0x154) (base + 0x1ac) (base + 0x1b4)
        (base + 0x1b0) (base + 0x1b8) (base + 0x1bc) (base + 0x1c0)
        (map (fun n => [eplist + (n * 2 + OUT) * DQH_SIZE;
                        eplist + (n * 2 + IN) * DQH_SIZE])
             [0; 1; 2; 3; 4; 5; 6; 7]).

Definition consts : Consts :=
  {| ENDPTCTRL_TXS := 16; ENDPTCTRL_RXS := 0;
     ENDPTCTRL_TXR := 22; ENDPTCTRL_RXR := 6;
     ENDPTFLUSH_FETB := 16; ENDPTFLUSH_FERB := 0;
     DEVICEADDR_USBADRA := 24; DEVICEADDR_USBADR := 25;
     USBSTS_URI := 6; SET_ETHERNET_PACKET_FILTER := 0x43 |}.

Record Behaviour : Type := mkBehaviour {
  retires : bool;      (* descriptors are executed at all *)
  status : Z;          (* error status left in the token, 0 if none *)
  host : list Z;       (* what the host sends on an OUT endpoint *)
  flags : bool;        (* the completion bit is raised *)
  cancels : bool       (* the loop of Start closes hw.done meanwhile *)
}.

(** The controller executes one descriptor: the active bit goes, the
    byte count goes down by what was moved, received bytes land in the
    buffer. *)
Definition retire (b : Behaviour) (dir : Z) (m : gmap Z Z) (dtd : Z)
  : gmap Z Z :=
  let token := load32 m (dtd + DTD_TOKEN) in
  let total := Z.shiftr token TOKEN_TOTAL in
  let ioc := Z.land token (Z.shiftl 1 TOKEN_IOC) in
  if negb (status b =? 0) then
    store32 m (dtd + DTD_TOKEN)
            (Z.lor (Z.shiftl total TOKEN_TOTAL) (Z.lor ioc (status b)))
  else if dir =? IN then store32 m (dtd + DTD_TOKEN) ioc
  else
    let moved := Z.min total (len (host b)) in
    let m := store m (load32 m (dtd + 8)) (firstn (Z.to_nat moved) (host b)) in
    store32 m (dtd + DTD_TOKEN) (Z.lor (Z.shiftl (total - moved) TOKEN_TOTAL) ioc).

Fixpoint retire_chain (depth : nat) (b : Behaviour) (dir : Z)
  (m : gmap Z Z) (dtd : Z) : gmap Z Z :=
  match depth with
  | O => m
  | S d =>
      let next := load32 m (dtd + DTD_NEXT) in
      let m := retire b dir m dtd in
      if Z.land next 1 =? 1 then m else retire_chain d b dir m next
  end.

(** The controller looks at one bit of ENDPTPRIME. *)
Definition serve (b : Behaviour) (m : gmap Z Z) (pos : Z) : gmap Z Z :=
  if bits.Get (load32 m (hw_prime hw)) pos 1 =? 1 then
    let n := pos mod 16 in
    let dir := pos / 16 in
    let q := eplist + (n * 2 + dir) * DQH_SIZE in
    let m :=
      if retires b then retire_chain 8 b dir m (load32 m (q + DQH_NEXT))
      else m in
    let m :=
      store32 m (hw_prime hw) (bits.Clear (load32 m (hw_prime hw)) pos) in
    if retires b && flags b then
      store32 m (hw_complete hw)
              (bits.SetBit (load32 m (hw_complete hw)) pos)
    else m
  else m.

(** One tick of the world: the controller serves the primed endpoints;
    the endpoint tasks leave once [hw.done] is closed. *)
Definition controller (b : Behaviour) (w : World) : World :=
  mkWorld (fold_left (serve b) [0; 1; 16; 17] (mem w))
          (if cancels b then
             match done w with ChanNil => ChanNil | _ => ChanClosed end
           else done w)
          (match done w with ChanClosed => 0%nat | _ => wg w end).

Definition platform (b : Behaviour) : Platform :=
  {| tick := controller b; polls := fun d => Z.to_nat (d / Millisecond) |}.

(** A responsive controller and a host that sends [data] when asked. *)
Definition good (data : list Z) : Platform :=
  platform (mkBehaviour true 0 data true false).

(** A controller that halts every descriptor (status bit 6). *)
Definition halting : Platform :=
  platform (mkBehaviour true 0x40 [] true false).


(** The same, while the loop of Start closes [hw.done]. *)
Definition cancelled : Platform :=
  platform (mkBehaviour false 0 [] false true).

(** A controller that executes descriptors and never raises the
    completion bit. *)
Definition silent (data : list Z) : Platform :=
  platform (mkBehaviour true 0 data false false).

(** The machine after DeviceMode: memory zeroed, the DMA region free
    above the queue head list. *)
Definition boot : Machine :=
  mkMachine (mkWorld ∅ ChanNil 0) (eplist + MAX_ENDPOINTS * 2 * DQH_SIZE)
            [] 0 [].


(** The machine while the endpoint tasks of a configuration run. *)
Definition running : Machine :=
  mkMachine (mkWorld ∅ ChanOpen 1) (eplist + MAX_ENDPOINTS * 2 * DQH_SIZE)
            [] 0 [].

(** A HID keyboard: an 18-byte device descriptor, a 10-byte device
    qualifier, three strings, one configuration, no setup override. *)
Definition keyboard : Device :=
  mkDevice
    [18; 1; 0; 2; 0; 0; 0; 64; 0x09; 0x12; 0x01; 0x00; 0; 1; 1; 2; 3; 1]
    (fun index =>
       if index =? 0 then
         inl [9; 2; 34; 0; 1; 1; 0; 0xc0; 50;
              9; 4; 0; 0; 1; 3; 1; 1; 0;
              9; 0x21; 0x01; 0x01; 33; 1; 0x22; 0x40; 0;
              7; 5; 0x81; 3; 8; 0; 10]
       else inr (ErrCaller index))
    [[4; 3; 9; 4]; [6; 3; 0x4b; 0; 0x42; 0]; [4; 3; 0x31; 0]]
    [10; 6; 0; 2; 0; 0; 0; 64; 1; 0]
    0 0 None.

(** GET_DESCRIPTOR(DEVICE_QUALIFIER) asking for 5 bytes. *)
Definition get_qualifier_5 : SetupData :=
  mkSetupData 0x80 GET_DESCRIPTOR 0x0006 0 5.

(** GET_DESCRIPTOR(STRING, index=5). *)
Definition get_string_5 : SetupData :=
  mkSetupData 0x80 GET_DESCRIPTOR 0x0503 0 255.

(** SET_DESCRIPTOR, a standard request the driver does not support. *)
Definition set_descriptor : SetupData :=
  mkSetupData 0x00 SET_DESCRIPTOR 0x0001 0 18.

(** HID GET_REPORT: a class request to an interface, device to host. *)
Definition get_report : SetupData :=
  mkSetupData 0xa1 0x01 0x0100 0 8.

(** SET_CONFIGURATION(2). *)
Definition set_configuration_2 : SetupData :=
  mkSetupData 0x00 SET_CONFIGURATION 0x0200 0 0.

(** Modelled from the spec: [startEndpoints] is not among the sources.
    Per the spec it starts the endpoint tasks of the selected configuration
    as a cohort, one task per declared endpoint, with a fresh cancellation
    channel; the keyboard has one endpoint.  No task is started for the
    inactive configuration 0. *)
Definition startEndpoints (hw : USB) (dev : Device) (conf : Z) : M unit :=
  if conf =? 0 then ret tt
  else
    modify (fun st =>
      set_world (mkWorld (mem (world st)) ChanOpen (S (wg (world st)))) st).

End sim.

(** ** Vocabulary of the statements *)

(** [quiet c]: [c] leaves the trace and the deferred calls as they are. *)
Definition quiet {A : Type} (c : M A) : Prop :=
  forall fuel st,
    trace (snd (c fuel st)) = trace st /\ defers (snd (c fuel st)) = defers st.


(** [emits Q c]: whatever [c] does, it only appends events that satisfy
    [Q] to the trace. *)
Definition emits {A : Type} (Q : Event -> Prop) (c : M A) : Prop :=
  forall fuel st,
    exists t, trace (snd (c fuel st)) = trace st ++ t /\ Forall Q t.

Definition is_alloc_or_prime (e : Event) : Prop :=
  match e with EvAlloc _ _ | EvPrime _ => True | _ => False end.

Definition is_token (e : Event) : Prop :=
  match e with EvToken _ _ => True | _ => False end.

Definition is_free (e : Event) : Prop :=
  match e with EvFree _ => True | _ => False end.

Definition is_engine (e : Event) : Prop :=
  match e with
  | EvTransfer _ _ _ _ | EvAlloc _ _ | EvFree _ | EvPrime _ | EvToken _ _
  | EvStall _ _ => True
  | _ => False
  end.

Definition is_handler (e : Event) : Prop :=
  match e with EvStandard _ | EvClassSpecific _ => True | _ => False end.







(** The buffer that [transfer] works on: a receive without a buffer gets
    one full descriptor. *)
Definition working_buf (dir : Z) (buf : option (list Z)) : option (list Z) :=
  match buf with
  | None => if dir =? OUT then Some (repeat 0 (Z.to_nat dtdLength)) else None
  | Some b => Some b
  end.

(** * Properties *)

(** ** Integers, bit fields and memory *)

Lemma u32_range x : 0 <= u32 x < 2 ^ 32.
Proof. unfold u32. apply Z.mod_pos_bound. lia. Qed.

Lemma u32_small x : 0 <= x < 2 ^ 32 -> u32 x = x.
Proof. intros H. unfold u32. apply Z.mod_small. exact H. Qed.

Lemma u32_idem x : u32 (u32 x) = u32 x.
Proof. apply u32_small, u32_range. Qed.

Lemma u8_range x : 0 <= u8 x < 2 ^ 8.
Proof. unfold u8. apply Z.mod_pos_bound. lia. Qed.

Lemma int_small x : - 2 ^ 31 <= x < 2 ^ 31 -> int x = x.
Proof. intros H. unfold int. rewrite Z.mod_small; lia. Qed.

Lemma load8_store_lt m a bs x : x < a -> load8 (store m a bs) x = load8 m x.
Proof.
  revert m a. induction bs as [|b bs IH]; intros m a Hx; simpl; [reflexivity|].
  rewrite IH by lia. unfold load8. rewrite lookup_insert_ne by lia. reflexivity.
Qed.

Lemma load8_store_ge m a bs x :
  a + len bs <= x -> load8 (store m a bs) x = load8 m x.
Proof.
  revert m a. induction bs as [|b bs IH]; intros m a Hx; simpl; [reflexivity|].
  unfold len in *. simpl length in Hx.
  rewrite IH by lia. unfold load8. rewrite lookup_insert_ne by lia. reflexivity.
Qed.

Lemma load8_store_in m a bs (i : nat) b :
  bs !! i = Some b -> load8 (store m a bs) (a + Z.of_nat i) = u8 b.
Proof.
  revert m a i. induction bs as [|b0 bs IH]; intros m a i Hi; [discriminate|].
  destruct i as [|i].
  - simpl in Hi. injection Hi as ->. cbn [store].
    rewrite load8_store_lt by (simpl; lia).
    unfold load8. simpl. rewrite Z.add_0_r.
    rewrite lookup_insert_eq. reflexivity.
  - cbn [store]. rewrite Nat2Z.inj_succ.
    replace (a + Z.succ (Z.of_nat i)) with (a + 1 + Z.of_nat i) by lia.
    apply IH. exact Hi.
Qed.

Lemma le32_sum v :
  u8 v + u8 (Z.shiftr v 8) * 2 ^ 8 + u8 (Z.shiftr v 16) * 2 ^ 16
  + u8 (Z.shiftr v 24) * 2 ^ 24 = u32 v.
Proof.
  unfold u8, u32. rewrite !Z.shiftr_div_pow2 by lia.
  change (2 ^ 8) with 256. change (2 ^ 16) with 65536.
  change (2 ^ 24) with 16777216. change (2 ^ 32) with 4294967296.
  Z.div_mod_to_equations. lia.
Qed.

Lemma load32_store32 m a v : load32 (store32 m a v) a = u32 v.
Proof.
  unfold load32, store32, le32.
  replace a with (a + Z.of_nat 0) at 2 by (simpl; lia).
  replace (a + 1) with (a + Z.of_nat 1) by (simpl; lia).
  replace (a + 2) with (a + Z.of_nat 2) by (simpl; lia).
  replace (a + 3) with (a + Z.of_nat 3) by (simpl; lia).
  erewrite (load8_store_in _ a _ 0%nat) by reflexivity.
  erewrite (load8_store_in _ a _ 1%nat) by reflexivity.
  erewrite (load8_store_in _ a _ 2%nat) by reflexivity.
  erewrite (load8_store_in _ a _ 3%nat) by reflexivity.
  assert (Hu : forall x, u8 (u8 x) = u8 x).
  { intros x. unfold u8. apply Z.mod_small. apply Z.mod_pos_bound. lia. }
  rewrite !Hu. apply le32_sum.
Qed.

Lemma load32_range m a :
  (forall x, 0 <= load8 m x < 256) -> 0 <= load32 m a < 2 ^ 32.
Proof.
  intros H. unfold load32.
  pose proof (H a). pose proof (H (a + 1)). pose proof (H (a + 2)).
  pose proof (H (a + 3)). lia.
Qed.


Lemma Get_SetBit w pos : 0 <= pos < 32 -> bits.Get (bits.SetBit w pos) pos 1 = 1.
Proof.
  intros Hp. unfold bits.Get, bits.SetBit, u32.
  apply Z.bits_inj'. intros i Hi.
  rewrite Z.land_spec, Z.shiftr_spec by lia.
  destruct (Z.eq_dec i 0) as [->|Hne].
  - simpl (0 + pos). rewrite Z.mod_pow2_bits_low by lia.
    rewrite Z.lor_spec, Z.shiftl_spec by lia.
    rewrite Z.sub_diag. change (Z.testbit 1 0) with true.
    rewrite orb_true_r. reflexivity.
  - change 1 with (Z.ones 1). rewrite Z.ones_spec_high by lia.
    apply andb_false_r.
Qed.

(** ** The driver monad: what leaves the trace alone *)

Lemma bind_Done {A B : Type} (c : M A) (k : A -> M B) fuel st a st1 :
  c fuel st = (Done a, st1) -> bind c k fuel st = k a fuel st1.
Proof. intros H. unfold bind. rewrite H. reflexivity. Qed.

Lemma bind_Done_inv {A B : Type} (c : M A) (k : A -> M B) fuel st b st' :
  bind c k fuel st = (Done b, st') ->
  exists a st1, c fuel st = (Done a, st1) /\ k a fuel st1 = (Done b, st').
Proof.
  unfold bind. destruct (c fuel st) as [[a| |] st1]; intros H;
    try discriminate.
  exists a, st1. split; [reflexivity|exact H].
Qed.

Lemma quiet_ret {A : Type} (a : A) : quiet (ret a).
Proof. intros fuel st. split; reflexivity. Qed.

Lemma quiet_panic {A : Type} : quiet (@panic A).
Proof. intros fuel st. split; reflexivity. Qed.

Lemma quiet_gets {A : Type} (f : Machine -> A) : quiet (gets f).
Proof. intros fuel st. split; reflexivity. Qed.

Lemma quiet_bind {A B : Type} (c : M A) (k : A -> M B) :
  quiet c -> (forall a, quiet (k a)) -> quiet (bind c k).
Proof.
  intros Hc Hk fuel st. unfold bind.
  destruct (Hc fuel st) as [Ht Hd].
  destruct (c fuel st) as [[a| |] st1]; simpl in *; try (split; assumption).
  destruct (Hk a fuel st1) as [Ht' Hd']. split; congruence.
Qed.

Lemma quiet_modify (f : Machine -> Machine) :
  (forall st, trace (f st) = trace st /\ defers (f st) = defers st) ->
  quiet (modify f).
Proof. intros H fuel st. apply H. Qed.

Section RuntimeFacts.
Context {P : Platform}.

Lemma yield_trace st : trace (yield st) = trace st.
Proof. reflexivity. Qed.

Lemma yield_defers st : defers (yield st) = defers st.
Proof. reflexivity. Qed.

Lemma iter_yield_quiet k st :
  trace (Nat.iter k yield st) = trace st /\
  defers (Nat.iter k yield st) = defers st.
Proof. induction k as [|k IH]; simpl; [split; reflexivity|exact IH]. Qed.


Lemma quiet_Sleep d : quiet (Sleep d).
Proof. apply quiet_modify. intros st. apply iter_yield_quiet. Qed.

Lemma quiet_Read addr : quiet (reg.Read addr).
Proof. apply quiet_gets. Qed.

Lemma quiet_Write addr val : quiet (reg.Write addr val).
Proof. apply quiet_modify. intros st. split; reflexivity. Qed.

Lemma quiet_Get addr pos mask : quiet (reg.Get addr pos mask).
Proof.
  apply quiet_bind; [apply quiet_Read|intros; apply quiet_ret].
Qed.

Lemma quiet_SetBit addr pos : quiet (reg.SetBit addr pos).
Proof.
  apply quiet_bind; [apply quiet_Read|intros; apply quiet_Write].
Qed.

Lemma quiet_SetN addr pos mask val : quiet (reg.SetN addr pos mask val).
Proof.
  apply quiet_bind; [apply quiet_Read|intros; apply quiet_Write].
Qed.

Lemma quiet_Wait addr pos mask val : quiet (reg.Wait addr pos mask val).
Proof.
  intros fuel. induction fuel as [|f IH]; intros st; simpl;
    destruct (reg.holds addr pos mask val st); try (split; reflexivity).
  destruct (IH (yield st)) as [Ht Hd]. split; [rewrite Ht|rewrite Hd]; reflexivity.
Qed.

Lemma WaitFor_loop_quiet k addr pos mask val st :
  trace (snd (reg.WaitFor_loop k addr pos mask val st)) = trace st /\
  defers (snd (reg.WaitFor_loop k addr pos mask val st)) = defers st.
Proof.
  revert st. induction k as [|k IH]; intros st; simpl;
    destruct (reg.holds addr pos mask val st); try (split; reflexivity).
  destruct (IH (yield st)) as [Ht Hd]. split; [rewrite Ht|rewrite Hd]; reflexivity.
Qed.

Lemma quiet_WaitFor d addr pos mask val : quiet (reg.WaitFor d addr pos mask val).
Proof.
  intros fuel st. unfold reg.WaitFor.
  pose proof (WaitFor_loop_quiet (polls d) addr pos mask val st) as H.
  destruct (reg.WaitFor_loop (polls d) addr pos mask val st) as [b st'].
  exact H.
Qed.

Lemma quiet_WaitSignal addr pos mask val :
  quiet (reg.WaitSignal addr pos mask val).
Proof.
  intros fuel. induction fuel as [|f IH]; intros st; simpl;
    destruct (reg.holds addr pos mask val st); try (split; reflexivity).
  destruct (done (tick (world st))); try (split; reflexivity);
    destruct (IH (yield st)) as [Ht Hd]; split;
    [rewrite Ht|rewrite Hd|rewrite Ht|rewrite Hd]; reflexivity.
Qed.

Lemma quiet_dma_Read addr off n : quiet (dma.Read addr off n).
Proof. apply quiet_gets. Qed.

Lemma quiet_slice_to {A : Type} (buf : list A) size : quiet (slice_to buf size).
Proof.
  unfold slice_to. destruct (_ || _); [apply quiet_panic|apply quiet_ret].
Qed.

End RuntimeFacts.

Create HintDb quiet.
#[export] Hint Resolve quiet_ret quiet_panic quiet_gets quiet_Sleep quiet_Read
  quiet_Write quiet_Get quiet_SetBit quiet_SetN quiet_Wait quiet_WaitFor
  quiet_WaitSignal quiet_dma_Read quiet_slice_to : quiet.

Ltac quiet_step :=
  match goal with
  | |- quiet (bind _ _) => apply quiet_bind; [|intros]
  | |- quiet (if ?b then _ else _) => destruct b
  | |- quiet (match ?x with _ => _ end) => destruct x
  | |- quiet _ => solve [auto with quiet]
  end.

Ltac quiet_tac := repeat quiet_step.

Section EngineFacts.
Context {P : Platform} {K : Consts}.

Lemma quiet_dQH hw n dir : quiet (dQH hw n dir).
Proof. unfold dQH. quiet_tac. Qed.

Lemma quiet_clear hw n dir : quiet (clear hw n dir).
Proof. unfold clear. quiet_tac. apply quiet_dQH. Qed.

Lemma quiet_nextDTD hw n dir dtd : quiet (nextDTD hw n dir dtd).
Proof. unfold nextDTD. quiet_tac. apply quiet_dQH. Qed.

Lemma quiet_await_inactive n token : quiet (await_inactive n token).
Proof. unfold await_inactive. quiet_tac. Qed.

Lemma quiet_await_completion hw n pos : quiet (await_completion hw n pos).
Proof. unfold await_completion. quiet_tac. Qed.

Lemma quiet_copy_out n dir caller buf pages size err :
  quiet (copy_out n dir caller buf pages size err).
Proof. unfold copy_out. quiet_tac. Qed.

End EngineFacts.

(** ** What a computation appends to the trace *)

Section Emits.
Variable Q : Event -> Prop.

Lemma emits_quiet {A : Type} (c : M A) : quiet c -> emits Q c.
Proof.
  intros H fuel st. exists []. rewrite app_nil_r. split; [apply H|constructor].
Qed.

Lemma emits_ret {A : Type} (a : A) : emits Q (ret a).
Proof. apply emits_quiet, quiet_ret. Qed.

Lemma emits_panic {A : Type} : emits Q (@panic A).
Proof. apply emits_quiet, quiet_panic. Qed.

Lemma emits_bind {A B : Type} (c : M A) (k : A -> M B) :
  emits Q c -> (forall a, emits Q (k a)) -> emits Q (bind c k).
Proof.
  intros Hc Hk fuel st. unfold bind.
  destruct (Hc fuel st) as [t [Ht HQ]].
  destruct (c fuel st) as [[a| |] st1]; cbn [snd] in *;
    try (exists t; split; assumption).
  destruct (Hk a fuel st1) as [t' [Ht' HQ']]. exists (t ++ t').
  rewrite Ht', Ht, app_assoc. split; [reflexivity|].
  apply Forall_app; split; assumption.
Qed.

Lemma emits_emit e : Q e -> emits Q (emit e).
Proof.
  intros H fuel st. exists [e]. split; [reflexivity|].
  constructor; [exact H|constructor].
Qed.

Lemma emits_modify (f : Machine -> Machine) :
  (forall st, trace (f st) = trace st) -> emits Q (modify f).
Proof.
  intros H fuel st. exists []. rewrite app_nil_r. split; [apply H|constructor].
Qed.

Lemma emits_defer_Free a : emits Q (defer_Free a).
Proof. apply emits_modify. reflexivity. Qed.

Lemma emits_Alloc buf align :
  (forall a n, Q (EvAlloc a n)) -> emits Q (dma.Alloc buf align).
Proof.
  intros H fuel st. eexists. split; [reflexivity|].
  constructor; [apply H|constructor].
Qed.

Lemma free_all_trace fuel l st :
  trace (fold_left (fun s a => snd (dma.Free a fuel s)) l st)
  = trace st ++ map EvFree l.
Proof.
  revert st. induction l as [|a l IH]; intros st; simpl.
  - rewrite app_nil_r. reflexivity.
  - rewrite IH. simpl. rewrite <- app_assoc. reflexivity.
Qed.

Lemma run_defers_trace fuel st :
  trace (run_defers fuel st) = trace st ++ map EvFree (defers st).
Proof. unfold run_defers. simpl. apply (free_all_trace fuel). Qed.

Lemma free_all_world fuel l st :
  world (fold_left (fun s a => snd (dma.Free a fuel s)) l st) = world st.
Proof.
  revert st. induction l as [|a l IH]; intros st; simpl; [reflexivity|].
  rewrite IH. reflexivity.
Qed.

Lemma run_defers_world fuel st : world (run_defers fuel st) = world st.
Proof. unfold run_defers. simpl. apply (free_all_world fuel). Qed.

Lemma Forall_map_EvFree l : (forall a, Q (EvFree a)) -> Forall Q (map EvFree l).
Proof.
  intros H. induction l as [|a l IH]; simpl; constructor; [apply H|exact IH].
Qed.

Lemma emits_with_defers {A : Type} (body : M A) :
  (forall a, Q (EvFree a)) -> emits Q body -> emits Q (with_defers body).
Proof.
  intros HF Hb fuel st. unfold with_defers.
  destruct (Hb fuel (set_defers [] st)) as [t [Ht HQ]].
  change (trace (set_defers [] st)) with (trace st) in Ht.
  destruct (body fuel (set_defers [] st)) as [[a| |] st1]; cbn [snd] in *.
  - change (trace (set_defers (defers st) (run_defers fuel st1)))
      with (trace (run_defers fuel st1)).
    rewrite run_defers_trace, Ht, <- app_assoc. eexists.
    split; [reflexivity|]. apply Forall_app. split; [exact HQ|].
    apply Forall_map_EvFree, HF.
  - change (trace (set_defers (defers st) (run_defers fuel st1)))
      with (trace (run_defers fuel st1)).
    rewrite run_defers_trace, Ht, <- app_assoc. eexists.
    split; [reflexivity|]. apply Forall_app. split; [exact HQ|].
    apply Forall_map_EvFree, HF.
  - exists t. split; assumption.
Qed.

End Emits.

Lemma emits_weaken {A : Type} (Q Q' : Event -> Prop) (c : M A) :
  (forall e, Q e -> Q' e) -> emits Q c -> emits Q' c.
Proof.
  intros HQ Hc fuel st. destruct (Hc fuel st) as [t [Ht Hall]].
  exists t. split; [exact Ht|]. eapply Forall_impl; eassumption.
Qed.

Ltac emits_step :=
  match goal with
  | |- emits _ (bind _ _) => apply emits_bind; [|intros]
  | |- emits _ (ret _) => apply emits_ret
  | |- emits _ panic => apply emits_panic
  | |- emits _ (emit _) => apply emits_emit; exact I
  | |- emits _ (defer_Free _) => apply emits_defer_Free
  | |- emits _ (dma.Alloc _ _) => apply emits_Alloc; intros; exact I
  | |- emits _ (if ?b then _ else _) => destruct b
  | |- emits _ (match ?x with _ => _ end) => destruct x
  | |- emits _ _ => solve [apply emits_quiet; auto with quiet]
  | |- emits _ _ => solve [auto]
  end.

Ltac emits_tac := repeat emits_step.

Section EngineEmits.
Context {P : Platform} {K : Consts}.

Lemma emits_buildDTD Q n dir ioc addr size :
  (forall a k, Q (EvAlloc a k)) -> emits Q (buildDTD n dir ioc addr size).
Proof.
  intros H. unfold buildDTD. apply emits_bind; [apply emits_Alloc, H|].
  intros. apply emits_ret.
Qed.

Lemma emits_transfer_step hw n dir ioc pages ts pos i prev :
  emits is_alloc_or_prime (transfer_step hw n dir ioc pages ts pos i prev).
Proof.
  unfold transfer_step.
  pose proof quiet_clear. pose proof quiet_nextDTD.
  apply emits_bind; [apply emits_buildDTD; intros; exact I|intros].
  emits_tac.
Qed.

Lemma emits_transfer_loop hw n dir ioc pages ts pos i prev dtds :
  emits is_alloc_or_prime
        (transfer_loop hw n dir ioc pages ts pos i prev dtds).
Proof.
  intros fuel. revert i prev dtds.
  induction fuel as [|f IH]; intros i prev dtds st.
  - cbn [transfer_loop].
    apply (emits_bind _ (transfer_step hw n dir ioc pages ts pos i prev)).
    + apply emits_transfer_step.
    + intros d. destruct (_ <? _).
      * intros fuel' st'. exists []. rewrite app_nil_r.
        split; [reflexivity|constructor].
      * apply emits_ret.
  - cbn [transfer_loop].
    apply (emits_bind _ (transfer_step hw n dir ioc pages ts pos i prev)).
    + apply emits_transfer_step.
    + intros d. destruct (_ <? _).
      * intros fuel' st'. apply IH.
      * apply emits_ret.
Qed.

Lemma emits_checkDTD_from n dir i dtds size :
  emits is_token (checkDTD_from n dir i dtds size).
Proof.
  revert i size. induction dtds as [|d dtds IH]; intros i size; simpl.
  - apply emits_ret.
  - pose proof quiet_await_inactive. emits_tac.
Qed.

Lemma emits_transfer_body hw n dir ioc buf :
  emits is_engine (transfer_body hw n dir ioc buf).
Proof.
  unfold transfer_body.
  pose proof quiet_await_completion. pose proof quiet_copy_out.
  assert (Hl : forall pages ts pos i prev dtds,
             emits is_engine (transfer_loop hw n dir ioc pages ts pos i prev dtds)).
  { intros. eapply emits_weaken; [|apply emits_transfer_loop].
    intros []; simpl; tauto. }
  assert (Hc : forall dtds, emits is_engine (checkDTD n dir dtds)).
  { intros. eapply emits_weaken; [|apply emits_checkDTD_from].
    intros []; simpl; tauto. }
  emits_tac.
Qed.

Lemma emits_transfer hw n dir ioc buf :
  emits is_engine (transfer hw n dir ioc buf).
Proof.
  apply emits_with_defers; [intros; exact I|apply emits_transfer_body].
Qed.

(** A transfer first records its call. *)
Lemma transfer_trace hw n dir ioc buf fuel st :
  exists t,
    trace (snd (transfer hw n dir ioc buf fuel st))
    = trace st ++ EvTransfer n dir ioc buf :: t /\ Forall is_engine t.
Proof.
  assert (Hrest : forall (rest : unit -> M (option (list Z) * option error * option (list Z))),
             (forall u, emits is_engine (rest u)) ->
             exists t, trace (snd (with_defers (bind (emit (EvTransfer n dir ioc buf)) rest) fuel st))
                       = trace st ++ EvTransfer n dir ioc buf :: t /\ Forall is_engine t).
  { intros rest Hg.
    destruct (emits_with_defers is_engine _ (fun _ => I) (Hg tt) fuel
                (snd (emit (EvTransfer n dir ioc buf) fuel st))) as [t [Ht HQ]].
    exists t. split; [|exact HQ]. unfold with_defers, bind in *.
    cbn [emit modify fst snd set_defers trace world brk defers clock] in *.
    destruct (rest tt fuel _) as [[a| |] st1] eqn:E; cbn [snd] in *;
      rewrite Ht, <- app_assoc; reflexivity. }
  unfold transfer, transfer_body. apply Hrest. intros _.
  pose proof quiet_await_completion. pose proof quiet_copy_out.
  assert (Hl : forall pages ts pos i prev dtds,
             emits is_engine (transfer_loop hw n dir ioc pages ts pos i prev dtds)).
  { intros. eapply emits_weaken; [|apply emits_transfer_loop].
    intros []; simpl; tauto. }
  assert (Hc : forall dtds, emits is_engine (checkDTD n dir dtds)).
  { intros. eapply emits_weaken; [|apply emits_checkDTD_from].
    intros []; simpl; tauto. }
  emits_tac.
Qed.

Lemma emits_ack hw n : emits is_engine (ack hw n).
Proof. unfold ack. pose proof emits_transfer. emits_tac. Qed.

Lemma emits_tx hw n ioc data : emits is_engine (tx hw n ioc data).
Proof. unfold tx. pose proof emits_transfer. emits_tac. Qed.

Lemma tx_trace hw n ioc data fuel st :
  exists t,
    trace (snd (tx hw n ioc data fuel st))
    = trace st ++ EvTransfer n IN ioc data :: t /\ Forall is_engine t.
Proof.
  unfold tx, bind.
  destruct (transfer_trace hw n IN ioc data fuel st) as [t [Ht HQ]].
  destruct (transfer hw n IN ioc data fuel st) as [[[[o e] b]| |] st1];
    cbn [snd] in *; try (exists t; split; assumption).
  destruct e as [e|]; [exists t; split; assumption|].
  destruct (n =? 0); [|exists t; split; assumption].
  destruct (emits_transfer hw n OUT false None fuel st1) as [t' [Ht' HQ']].
  destruct (transfer hw n OUT false None fuel st1) as [[[[o' e'] b']| |] st2];
    cbn [snd ret] in *; rewrite Ht', Ht, <- app_assoc; eexists;
    (split; [reflexivity|apply Forall_app; split; assumption]).
Qed.

Lemma emits_stall hw n dir : emits is_engine (stall hw n dir).
Proof. unfold stall. emits_tac. Qed.

Lemma quiet_reset hw n dir : quiet (reset hw n dir).
Proof. unfold reset. quiet_tac. Qed.

End EngineEmits.

(** ** The setup dispatcher *)

Lemma is_engine_not_handler t : Forall is_engine t -> Forall (fun e => ~ is_handler e) t.
Proof.
  intros H. eapply Forall_impl; [exact H|]. intros []; simpl; tauto.
Qed.

Lemma trim_length buf w : 0 <= w -> len (trim buf w) = Z.min (len buf) w.
Proof.
  intros Hw. unfold trim, len.
  destruct (Z.ltb_spec w (Z.of_nat (length buf))).
  - rewrite length_firstn. lia.
  - lia.
Qed.

Section DispatcherFacts.
Context {P : Platform} {K : Consts}.

Lemma stall_run (hw : USB) (n dir : Z) fuel st :
  exists st',
    stall hw n dir fuel st = (Done tt, st') /\
    trace st' = trace st ++ [EvStall n dir] /\
    brk st' = brk st /\ clock st' = clock st /\ defers st' = defers st /\
    done (world st') = done (world st) /\ wg (world st') = wg (world st) /\
    let ctrl := u32 (hw_epctrl hw + u32 (4 * n)) in
    let bit := if dir =? IN then ENDPTCTRL_TXS else ENDPTCTRL_RXS in
    mem (world st')
    = store32 (mem (world st)) ctrl
              (bits.SetBit (load32 (mem (world st)) ctrl) bit).
Proof.
  unfold stall. destruct (dir =? IN); eexists; (split; [reflexivity|]);
    cbn; repeat split; reflexivity.
Qed.

Lemma stalled_holds (hw : USB) (n : Z) st st' (bit : Z) :
  0 <= bit < 32 ->
  mem (world st')
  = store32 (mem (world st)) (u32 (hw_epctrl hw + u32 (4 * n)))
            (bits.SetBit (load32 (mem (world st)) (u32 (hw_epctrl hw + u32 (4 * n)))) bit) ->
  reg.holds (u32 (hw_epctrl hw + u32 (4 * n))) bit 1 1 st' = true.
Proof.
  intros Hb Hm. unfold reg.holds. rewrite Hm, load32_store32.
  unfold bits.SetBit at 1. rewrite u32_idem.
  fold (bits.SetBit (load32 (mem (world st)) (u32 (hw_epctrl hw + u32 (4 * n)))) bit).
  rewrite Get_SetBit by exact Hb. reflexivity.
Qed.

Lemma string_index_range v : 0 <= v < 2 ^ 16 -> 0 <= Z.shiftr v 8 < 256.
Proof.
  intros H. rewrite Z.shiftr_div_pow2 by lia. change (2 ^ 8) with 256.
  change (2 ^ 16) with 65536 in H. split.
  - apply Z.div_pos; lia.
  - apply Z.div_lt_upper_bound; lia.
Qed.

(** C6.  A GET_DESCRIPTOR(STRING) request whose index, whatever 16-bit
    value the packet carries, is not below the number of configured
    strings stalls endpoint 0 IN (the stall bit of ENDPTCTRL0 reads as
    set), returns the invalid-index error, and starts no transfer: the
    only event is the stall, no time passes and nothing is allocated.
    The same holds when the request comes through the standard handler. *)
Theorem getDescriptor_string_out_of_range hw dev s fuel st :
  0 <= Value s < 2 ^ 16 ->
  Z.land (Value s) 0xff = STRING ->
  len (Strings dev) <= Z.shiftr (Value s) 8 ->
  0 <= ENDPTCTRL_TXS < 32 ->
  exists st',
    getDescriptor hw dev s fuel st
    = (Done (Some (ErrInvalidStringIndex (Z.shiftr (Value s) 8))), st') /\
    (Request s = GET_DESCRIPTOR ->
     handleStandardSetup hw dev s fuel st
     = (Done (dev, Some (ErrInvalidStringIndex (Z.shiftr (Value s) 8))),
        mkMachine (world st') (brk st') (defers st') (clock st')
                  (trace st ++ [EvStandard s; EvStall 0 IN]))) /\
    trace st' = trace st ++ [EvStall 0 IN] /\
    reg.holds (u32 (hw_epctrl hw + u32 (4 * 0))) ENDPTCTRL_TXS 1 1 st' = true /\
    brk st' = brk st /\ clock st' = clock st.
Proof.
  intros Hv Ht Hlen Hbit.
  pose proof (string_index_range _ Hv) as Hi.
  assert (Hguard : (int (u16 (Z.shiftr (Value s) 8 + 1)) >? len (Strings dev)) = true).
  { unfold u16. rewrite Z.mod_small by (change (2 ^ 16) with 65536; lia).
    rewrite int_small by (change (2 ^ 31) with 2147483648; lia).
    apply Z.gtb_lt. lia. }
  destruct (stall_run hw 0 IN fuel st) as [st' [Hrun [Htr [Hbrk [Hclk [Hdf [Hdn [Hwg Hmem]]]]]]]].
  exists st'.
  assert (Hget : getDescriptor hw dev s fuel st
                 = (Done (Some (ErrInvalidStringIndex (Z.shiftr (Value s) 8))), st')).
  { unfold getDescriptor. rewrite Ht.
    change (STRING =? DEVICE) with false.
    change (STRING =? CONFIGURATION) with false.
    change (STRING =? STRING) with true. cbv iota.
    rewrite Hguard. unfold bind. rewrite Hrun. reflexivity. }
  split; [exact Hget|]. split.
  - intros Hreq. unfold handleStandardSetup. rewrite Hreq.
    change (GET_DESCRIPTOR =? GET_STATUS) with false.
    change (GET_DESCRIPTOR =? CLEAR_FEATURE) with false.
    change (GET_DESCRIPTOR =? SET_ADDRESS) with false.
    change (GET_DESCRIPTOR =? GET_DESCRIPTOR) with true. cbv iota.
    unfold bind at 1. cbn [emit modify].
    unfold getDescriptor. rewrite Ht.
    change (STRING =? DEVICE) with false.
    change (STRING =? CONFIGURATION) with false.
    change (STRING =? STRING) with true. cbv iota.
    rewrite Hguard. unfold stall. change (IN =? IN) with true. cbv iota.
    unfold stall in Hrun. change (IN =? IN) with true in Hrun. cbv iota in Hrun.
    cbn in Hrun. injection Hrun as <-. cbn. rewrite <- app_assoc. reflexivity.
  - split; [exact Htr|]. split; [|split; assumption].
    eapply stalled_holds; [exact Hbit|]. exact Hmem.
Qed.

End DispatcherFacts.

Section DispatcherClaims.
Context {P : Platform}.

Lemma emits_getDescriptor {K : Consts} hw dev s :
  emits is_engine (getDescriptor hw dev s).
Proof.
  unfold getDescriptor.
  pose proof emits_tx. pose proof (emits_stall (K:=K)).
  emits_tac.
Qed.

Lemma handleStandardSetup_trace {K : Consts} hw dev s fuel st :
  exists t,
    trace (snd (handleStandardSetup hw dev s fuel st))
    = trace st ++ EvStandard s :: t /\ Forall is_engine t.
Proof.
  assert (Hrest : forall (rest : unit -> M (Device * option error)),
             (forall u, emits is_engine (rest u)) ->
             exists t, trace (snd (bind (emit (EvStandard s)) rest fuel st))
                       = trace st ++ EvStandard s :: t /\ Forall is_engine t).
  { intros rest Hg. unfold bind. cbn [emit modify].
    destruct (Hg tt fuel (mkMachine (world st) (brk st) (defers st) (clock st) (trace st ++ [EvStandard s]))) as [t [Ht HQ]].
    exists t. split; [|exact HQ]. rewrite Ht. cbn [trace].
    rewrite <- app_assoc. reflexivity. }
  unfold handleStandardSetup. apply Hrest. intros _.
  pose proof emits_tx. pose proof (emits_stall (K:=K)).
  pose proof emits_ack. pose proof (emits_getDescriptor (K:=K)).
  pose proof (quiet_reset (K:=K)).
  emits_tac.
Qed.

Lemma handleClassSpecificSetup_trace {K : Consts} hw dev s fuel st :
  exists t,
    trace (snd (handleClassSpecificSetup hw dev s fuel st))
    = trace st ++ EvClassSpecific s :: t /\ Forall is_engine t.
Proof.
  assert (Hrest : forall (rest : unit -> M (option error)),
             (forall u, emits is_engine (rest u)) ->
             exists t, trace (snd (bind (emit (EvClassSpecific s)) rest fuel st))
                       = trace st ++ EvClassSpecific s :: t /\ Forall is_engine t).
  { intros rest Hg. unfold bind. cbn [emit modify].
    destruct (Hg tt fuel (mkMachine (world st) (brk st) (defers st) (clock st) (trace st ++ [EvClassSpecific s]))) as [t [Ht HQ]].
    exists t. split; [|exact HQ]. rewrite Ht. cbn [trace].
    rewrite <- app_assoc. reflexivity. }
  unfold handleClassSpecificSetup. apply Hrest. intros _.
  pose proof (emits_stall (K:=K)). pose proof emits_ack.
  emits_tac.
Qed.

(** C5, as the code has it.  Without a setup override, [handleSetup]
    enters exactly one handler, and it chooses by comparing the whole
    requestType with 0x21: the class-specific handler for 0x21, the
    standard handler for every other value (bit 5 set or not). *)
Theorem handleSetup_routes_on_0x21 {K : Consts} hw dev s fuel st :
  Setup dev = None ->
  exists t,
    trace (snd (handleSetup hw dev (Some s) fuel st))
    = trace st
      ++ (if RequestType s =? 0x21 then EvClassSpecific s else EvStandard s)
      :: t
    /\ Forall (fun e => ~ is_handler e) t.
Proof.
  intros Hnone. unfold handleSetup, consult. rewrite Hnone.
  unfold bind at 1. cbn [ret]. unfold bind at 1. cbn [Sleep modify].
  set (st1 := Nat.iter (polls (100 * Millisecond)) yield st).
  assert (Htr : trace st1 = trace st) by apply iter_yield_quiet.
  destruct (RequestType s =? 33).
  - destruct (handleClassSpecificSetup_trace hw dev s fuel st1) as [t [Ht HQ]].
    exists t. split; [|apply is_engine_not_handler, HQ].
    unfold bind.
    destruct (handleClassSpecificSetup hw dev s fuel st1) as [[a| |] st2];
      cbn [snd ret] in *; rewrite Ht, Htr; reflexivity.
  - destruct (handleStandardSetup_trace hw dev s fuel st1) as [t [Ht HQ]].
    exists t. split; [|apply is_engine_not_handler, HQ].
    unfold bind.
    destruct (handleStandardSetup hw dev s fuel st1) as [[[d e]| |] st2];
      cbn [snd ret] in *; rewrite Ht, Htr; reflexivity.
Qed.

(** C1, at the failing input.  For GET_DESCRIPTOR(DEVICE_QUALIFIER) with
    wLength 5 and a 10-byte qualifier, the blob handed to the endpoint 0 IN
    transfer is the whole qualifier: 10 bytes, not min(10, 5) = 5.  This
    holds on every platform, for every fuel and machine. *)
Theorem getDescriptor_qualifier_not_trimmed {K : Consts} hw fuel st :
  exists t,
    trace (snd (getDescriptor hw sim.keyboard sim.get_qualifier_5 fuel st))
    = trace st ++ EvTransfer 0 IN false (Some (Qualifier sim.keyboard)) :: t
    /\ len (Qualifier sim.keyboard) = 10
    /\ Z.min (len (Qualifier sim.keyboard)) (Length sim.get_qualifier_5) = 5.
Proof.
  destruct (tx_trace hw 0 false (Some (Qualifier sim.keyboard)) fuel st)
    as [t [Ht _]].
  exists t. split; [|split; reflexivity].
  exact Ht.
Qed.

(** C8, at the failing input.  SET_DESCRIPTOR is not supported: the
    standard handler stalls endpoint 0 IN and returns the
    unsupported-request error, and [handleSetup] drops that error and
    returns nil to the loop.  This holds on every platform, for every
    controller instance, fuel and machine. *)
Theorem handleSetup_drops_stall_error hw fuel st :
  exists st0 st',
    handleStandardSetup (K:=sim.consts) hw sim.keyboard sim.set_descriptor fuel st
    = (Done (sim.keyboard, Some (ErrUnsupportedRequest SET_DESCRIPTOR)), st0) /\
    handleSetup (K:=sim.consts) hw sim.keyboard (Some sim.set_descriptor) fuel st
    = (Done (sim.keyboard, None), st') /\
    trace st' = trace st ++ [EvStandard sim.set_descriptor; EvStall 0 IN] /\
    reg.holds (u32 (hw_epctrl hw + u32 (4 * 0))) 16 1 1 st' = true.
Proof.
  assert (Hstd : forall s0,
    exists s1,
      handleStandardSetup (K:=sim.consts) hw sim.keyboard sim.set_descriptor fuel s0
      = (Done (sim.keyboard, Some (ErrUnsupportedRequest SET_DESCRIPTOR)), s1) /\
      trace s1 = trace s0 ++ [EvStandard sim.set_descriptor; EvStall 0 IN] /\
      reg.holds (u32 (hw_epctrl hw + u32 (4 * 0))) 16 1 1 s1 = true).
  { intros s0.
    destruct (stall_run (K:=sim.consts) hw 0 IN fuel
                (snd (emit (EvStandard sim.set_descriptor) fuel s0)))
      as [s1 [Hrun [Htr [_ [_ [_ [_ [_ Hmem]]]]]]]].
    exists s1. split; [|split].
    - unfold handleStandardSetup. cbn [Request sim.set_descriptor].
      change (SET_DESCRIPTOR =? GET_STATUS) with false.
      change (SET_DESCRIPTOR =? CLEAR_FEATURE) with false.
      change (SET_DESCRIPTOR =? SET_ADDRESS) with false.
      change (SET_DESCRIPTOR =? GET_DESCRIPTOR) with false.
      change (SET_DESCRIPTOR =? GET_CONFIGURATION) with false.
      change (SET_DESCRIPTOR =? SET_CONFIGURATION) with false.
      change (SET_DESCRIPTOR =? GET_INTERFACE) with false.
      change (SET_DESCRIPTOR =? SET_INTERFACE) with false.
      change (SET_DESCRIPTOR =? SET_ETHERNET_PACKET_FILTER) with false.
      cbv iota. unfold bind at 1.
      change (emit (EvStandard sim.set_descriptor) fuel s0)
        with (Done tt, snd (emit (EvStandard sim.set_descriptor) fuel s0)).
      cbv iota. unfold bind. rewrite Hrun. reflexivity.
    - rewrite Htr. cbn [emit modify snd trace]. rewrite <- app_assoc.
      reflexivity.
    - eapply stalled_holds; [|exact Hmem]. lia. }
  destruct (Hstd st) as [st0 [H0 _]].
  set (st1 := Nat.iter (polls (100 * Millisecond)) yield st).
  assert (Htr1 : trace st1 = trace st) by apply iter_yield_quiet.
  destruct (Hstd st1) as [st' [H1 [Htr Hh]]].
  exists st0, st'. split; [exact H0|]. split; [|split].
  - unfold handleSetup, consult. cbn [Setup sim.keyboard].
    unfold bind at 1. cbn [ret]. unfold bind at 1. cbn [Sleep modify].
    cbn [RequestType sim.set_descriptor]. change (0 =? 33) with false. cbv iota.
    fold st1. unfold bind. rewrite H1. reflexivity.
  - rewrite Htr, Htr1. reflexivity.
  - exact Hh.
Qed.

End DispatcherClaims.

(** C5, refuted as stated.  HID GET_REPORT has requestType 0xa1, with
    bit 5 set, and [handleSetup] hands it to the standard handler (which
    takes request 1 for CLEAR_FEATURE and stalls): the class-specific
    handler is never entered. *)
Lemma handleSetup_bit5_counterexample :
  Z.testbit (RequestType sim.get_report) 5 = true /\
  trace (snd (handleSetup (P:=sim.good []) (K:=sim.consts) sim.hw sim.keyboard
                          (Some sim.get_report) 0%nat sim.boot))
  = [EvStandard sim.get_report; EvStall 0 IN].
Proof. split; vm_compute; reflexivity. Qed.

(** ** The descriptor loop of transfer *)



Section StepFacts.
Context {P : Platform}.






End StepFacts.



Section LoopRun.
Context {P : Platform}.

Lemma transfer_loop_eq (hw : USB) (n dir : Z) ioc (pages ts pos i : Z)
  prev dtds fuel st :
  transfer_loop hw n dir ioc pages ts pos i prev dtds fuel st
  = (let* dtd := transfer_step hw n dir ioc pages ts pos i prev in
     let dtds := dtds ++ [dtd] in
     let i := int (i + dtdLength) in
     if i <? ts then
       fun _ st' =>
         match fuel with
         | O => (Spin, st')
         | S f =>
             transfer_loop hw n dir ioc pages ts pos i (Some dtd) dtds f st'
         end
     else ret dtds) fuel st.
Proof. destruct fuel; reflexivity. Qed.



End LoopRun.


(** ** The waits of the engine *)

Section WaitFacts.
Context {P : Platform}.









End WaitFacts.

Section SpinFacts.
Context {P : Platform}.




Lemma world_iter_fix k st :
  tick (world st) = world st -> world (Nat.iter k yield st) = world st.
Proof.
  intros H. induction k as [|k IH]; simpl; [reflexivity|].
  rewrite IH. exact H.
Qed.


End SpinFacts.


(** The deadline of the completion wait is not reported: with a controller
    that executes the descriptor and never raises the completion bit, the
    20 ms pass (21 yields) and the call returns a nil error. *)
Lemma transfer_ep0_timeout_dropped :
  let r := transfer (P:=sim.silent []) sim.hw 0 IN false (Some [1; 2; 3; 4])
                    1%nat sim.boot in
  fst r = Done (None, None, Some [1; 2; 3; 4]) /\ clock (snd r) = 22%nat.
Proof. split; vm_compute; reflexivity. Qed.

(** ** The course of a transfer that returns *)

Section TransferInversion.
Context {P : Platform}.

Lemma quiet_Done {A : Type} (c : M A) fuel st a st' :
  quiet c -> c fuel st = (Done a, st') ->
  trace st' = trace st /\ defers st' = defers st.
Proof. intros Hq H. specialize (Hq fuel st). rewrite H in Hq. exact Hq. Qed.

Lemma buildDTD_run (n dir : Z) ioc (addr size : Z) fuel st :
  exists d st1,
    buildDTD n dir ioc addr size fuel st = (Done d, st1) /\
    trace st1 = trace st ++ [EvAlloc (_dtd d) DTD_SIZE] /\
    defers st1 = defers st.
Proof.
  unfold buildDTD, bind. cbn [dma.Alloc ret].
  eexists. eexists. split; [reflexivity|]. cbn [trace defers _dtd].
  rewrite u32_idem. split; reflexivity.
Qed.

Lemma defer_Free_run (a : Z) fuel st :
  defer_Free a fuel st = (Done tt, set_defers (a :: defers st) st).
Proof. reflexivity. Qed.

Lemma transfer_step_inv (hw : USB) (n dir : Z) ioc (pages ts pos i : Z) prev
  fuel st d st' :
  transfer_step hw n dir ioc pages ts pos i prev fuel st = (Done d, st') ->
  defers st' = _dtd d :: defers st /\
  exists t,
    trace st' = trace st ++ EvAlloc (_dtd d) DTD_SIZE :: t /\
    Forall is_alloc_or_prime t.
Proof.
  unfold transfer_step. intros H.
  destruct (buildDTD_run n dir ioc (u32 (u32 pages + u32 i)) (chunk ts i) fuel st)
    as (dtd & s1 & Hb & Htr1 & Hdf1).
  rewrite (bind_Done _ _ _ _ _ _ Hb) in H.
  rewrite (bind_Done _ _ _ _ _ _ (defer_Free_run _ _ _)) in H.
  match type of H with
  | bind ?c ?k fuel ?s = _ =>
      assert (Hem : emits is_alloc_or_prime (bind c k)); [|
        assert (Hdf : forall s0 r0 s0', bind c k fuel s0 = (Done r0, s0') ->
                                       defers s0' = defers s0 /\ r0 = dtd)]
  end.
  { pose proof quiet_clear. pose proof quiet_nextDTD. emits_tac. }
  { intros s0 r0 s0' H0.
    apply bind_Done_inv in H0. destruct H0 as (pr & s3 & Hp & H0).
    assert (Hq1 : defers s3 = defers s0).
    { eapply quiet_Done; [|exact Hp].
      destruct (i =? 0); [apply quiet_ret|].
      destruct prev; [|apply quiet_panic]. quiet_tac. }
    apply bind_Done_inv in H0. destruct H0 as ([] & s4 & Hp2 & H0).
    cbn [ret] in H0. injection H0 as <- <-. split; [|reflexivity].
    rewrite <- Hq1. destruct pr.
    - apply bind_Done_inv in Hp2. destruct Hp2 as ([] & s5 & Hc & Hp2).
      apply bind_Done_inv in Hp2. destruct Hp2 as ([] & s6 & Hn & Hp2).
      apply bind_Done_inv in Hp2. destruct Hp2 as ([] & s7 & Hs & Hp2).
      cbn [emit modify] in Hp2. injection Hp2 as <-. cbn [defers].
      pose proof (quiet_Done _ _ _ _ _ (quiet_clear hw n dir) Hc) as [_ E1].
      pose proof (quiet_Done _ _ _ _ _ (quiet_nextDTD hw n dir _) Hn) as [_ E2].
      pose proof (quiet_Done _ _ _ _ _ (quiet_SetBit _ _) Hs) as [_ E3].
      congruence.
    - cbn [ret] in Hp2. injection Hp2 as <-. reflexivity. }
  destruct (Hdf _ _ _ H) as [Hd ->]. split.
  - rewrite Hd. cbn [set_defers defers]. rewrite Hdf1. reflexivity.
  - destruct (Hem fuel (set_defers (_dtd dtd :: defers s1) s1)) as [t [Ht HQ]].
    exists t. split; [|exact HQ].
    rewrite H in Ht. cbn [snd set_defers trace] in Ht. rewrite Ht, Htr1.
    rewrite <- app_assoc. reflexivity.
Qed.

Lemma transfer_loop_inv (hw : USB) (n dir : Z) ioc (pages ts pos : Z) fuel :
  forall (i : Z) prev dtds0 st dtds st',
    transfer_loop hw n dir ioc pages ts pos i prev dtds0 fuel st
    = (Done dtds, st') ->
    exists new t,
      dtds = dtds0 ++ new /\ new <> [] /\
      defers st' = rev (map _dtd new) ++ defers st /\
      trace st' = trace st ++ t /\
      Forall is_alloc_or_prime t /\
      Forall (fun d => In (EvAlloc (_dtd d) DTD_SIZE) t) new.
Proof.
  induction fuel as [|f IH]; intros i prev dtds0 st dtds st' H;
    rewrite transfer_loop_eq in H;
    apply bind_Done_inv in H; destruct H as (d & s1 & Hs & H);
    apply transfer_step_inv in Hs; destruct Hs as (Hdf & t & Ht & HQ);
    cbv zeta in H; destruct (int (i + dtdLength) <? ts).
  - discriminate.
  - cbn [ret] in H. injection H as <- <-.
    exists [d], (EvAlloc (_dtd d) DTD_SIZE :: t).
    split; [reflexivity|]. split; [discriminate|]. split; [exact Hdf|].
    split; [exact Ht|]. split.
    + constructor; [exact I|exact HQ].
    + constructor; [left; reflexivity|constructor].
  - apply IH in H. destruct H as (new & t' & -> & _ & Hdf' & Ht' & HQ' & Hin).
    exists (d :: new), ((EvAlloc (_dtd d) DTD_SIZE :: t) ++ t').
    split; [rewrite <- app_assoc; reflexivity|]. split; [discriminate|].
    split; [|split; [|split]].
    + cbn [map rev]. rewrite Hdf', Hdf, <- app_assoc. reflexivity.
    + rewrite Ht', Ht, <- app_assoc. reflexivity.
    + apply Forall_app. split; [constructor; [exact I|exact HQ]|exact HQ'].
    + constructor.
      * apply in_or_app. left. left. reflexivity.
      * eapply Forall_impl; [exact Hin|]. intros x Hx.
        apply in_or_app. right. exact Hx.
  - cbn [ret] in H. injection H as <- <-.
    exists [d], (EvAlloc (_dtd d) DTD_SIZE :: t).
    split; [reflexivity|]. split; [discriminate|]. split; [exact Hdf|].
    split; [exact Ht|]. split.
    + constructor; [exact I|exact HQ].
    + constructor; [left; reflexivity|constructor].
Qed.

End TransferInversion.

Section CheckFacts.
Context {P : Platform}.

Lemma low_byte_clear_inactive v :
  Z.land v 0xff = 0 -> Z.testbit v TOKEN_ACTIVE = false.
Proof.
  intros H.
  assert (E : Z.testbit (Z.land v 0xff) TOKEN_ACTIVE = Z.testbit v TOKEN_ACTIVE).
  { rewrite Z.land_spec. change (Z.testbit 255 TOKEN_ACTIVE) with true.
    apply andb_true_r. }
  rewrite <- E, H. apply Z.bits_0.
Qed.

Lemma Read_run (addr : Z) fuel st :
  reg.Read addr fuel st = (Done (load32 (mem (world st)) addr), st).
Proof. reflexivity. Qed.

Lemma emit_run e fuel st :
  emit e fuel st
  = (Done tt, mkMachine (world st) (brk st) (defers st) (clock st)
                        (trace st ++ [e])).
Proof. reflexivity. Qed.

(** When [checkDTD] reports no error, it has read the token of every
    descriptor, in order, with a clear status byte. *)
Lemma checkDTD_from_ok (n dir : Z) dtds :
  forall (i size : Z) fuel st size' st',
    checkDTD_from n dir i dtds size fuel st = (Done (size', None), st') ->
    exists toks,
      trace st' = trace st ++ toks /\
      defers st' = defers st /\
      Forall is_token toks /\
      Forall (fun d => exists v,
                  In (EvToken (u32 (_dtd d + DTD_TOKEN)) v) toks /\
                  Z.testbit v TOKEN_ACTIVE = false) dtds.
Proof.
  induction dtds as [|d dtds IH]; intros i size fuel st size' st' H.
  - cbn [checkDTD_from ret] in H. injection H as _ <-.
    exists []. rewrite app_nil_r. repeat split; constructor.
  - cbn [checkDTD_from] in H.
    apply bind_Done_inv in H. destruct H as ([] & s1 & Hw & H).
    pose proof (quiet_Done _ _ _ _ _ (quiet_await_inactive n _) Hw) as [T1 D1].
    rewrite (bind_Done _ _ _ _ _ _ (Read_run _ _ _)) in H.
    rewrite (bind_Done _ _ _ _ _ _ (emit_run _ _ _)) in H.
    set (v := load32 (mem (world s1)) (u32 (_dtd d + DTD_TOKEN))) in *.
    destruct (Z.land v 255 =? 0) eqn:Ev; cbn [negb] in H; [|discriminate].
    destruct ((dir =? IN) && (Z.shiftr v TOKEN_TOTAL >? 0)); [discriminate|].
    apply IH in H. destruct H as (toks & Ht & Hd & HQ & Hall).
    cbn [trace defers] in Ht, Hd.
    exists (EvToken (u32 (_dtd d + DTD_TOKEN)) v :: toks).
    split; [rewrite Ht, T1, <- app_assoc; reflexivity|].
    split; [congruence|]. split; [constructor; [exact I|exact HQ]|].
    constructor.
    + exists v. split; [left; reflexivity|].
      apply low_byte_clear_inactive, Z.eqb_eq, Ev.
    + eapply Forall_impl; [exact Hall|]. intros x (v' & Hin & Hv').
      exists v'. split; [right; exact Hin|exact Hv'].
Qed.

Lemma checkDTD_from_defers (n dir : Z) dtds :
  forall (i size : Z) fuel st r st',
    checkDTD_from n dir i dtds size fuel st = (Done r, st') ->
    defers st' = defers st.
Proof.
  induction dtds as [|d dtds IH]; intros i size fuel st r st' H.
  - cbn [checkDTD_from ret] in H. injection H as _ <-. reflexivity.
  - cbn [checkDTD_from] in H.
    apply bind_Done_inv in H. destruct H as ([] & s1 & Hw & H).
    pose proof (quiet_Done _ _ _ _ _ (quiet_await_inactive n _) Hw) as [T1 D1].
    rewrite (bind_Done _ _ _ _ _ _ (Read_run _ _ _)) in H.
    rewrite (bind_Done _ _ _ _ _ _ (emit_run _ _ _)) in H.
    destruct (negb _).
    { cbn [ret] in H. injection H as _ <-. exact D1. }
    destruct (_ && _).
    { cbn [ret] in H. injection H as _ <-. exact D1. }
    apply IH in H. cbn [defers] in H. congruence.
Qed.

Lemma checkDTD_from_tokens (n dir : Z) dtds (i size : Z) fuel st r st' :
  checkDTD_from n dir i dtds size fuel st = (Done r, st') ->
  exists toks, trace st' = trace st ++ toks /\ Forall is_token toks.
Proof.
  intros H.
  destruct (emits_checkDTD_from n dir i dtds size fuel st) as (t & Ht & HQ).
  rewrite H in Ht. exists t. split; assumption.
Qed.

Lemma copy_out_inv (n dir : Z) caller buf (pages size : Z) err fuel st
  out err' after st' :
  copy_out n dir caller buf pages size err fuel st
  = (Done (out, err', after), st') ->
  st' = st /\ err' = err /\
  match buf with
  | Some b =>
      if negb (n =? 0) && (dir =? OUT) then
        0 <= size <= len b /\
        out = Some (load (mem (world st)) pages (Z.to_nat size)) /\
        after = match caller with
                | Some c =>
                    Some (load (mem (world st)) pages (Z.to_nat size)
                          ++ skipn (Z.to_nat size) c)
                | None => None
                end
      else out = None /\ after = caller
  | None => out = None /\ after = caller
  end.
Proof.
  unfold copy_out. intros H.
  destruct (negb (n =? 0) && (dir =? OUT)).
  - destruct buf as [b|].
    + unfold slice_to in H.
      destruct (Z.ltb_spec size 0); [discriminate|].
      destruct (Z.ltb_spec (len b) size); [discriminate|].
      cbn [orb] in H. unfold bind in H. cbn [ret dma.Read gets] in H.
      assert (Hl : length (firstn (Z.to_nat size) b) = Z.to_nat size).
      { rewrite length_firstn. unfold len in *. lia. }
      rewrite Hl, Z.add_0_r in H.
      assert (Hl2 : length (load (mem (world st)) pages (Z.to_nat size))
                    = Z.to_nat size).
      { unfold load. rewrite length_map, length_seq. reflexivity. }
      rewrite Hl2 in H. injection H as <- <- <- <-.
      repeat split; try reflexivity; lia.
    + cbn [ret] in H. injection H as <- <- <- <-. repeat split; reflexivity.
  - cbn [ret] in H. injection H as <- <- <- <-.
    destruct buf; repeat split; reflexivity.
Qed.

End CheckFacts.

Section TransferFacts.
Context {P : Platform}.

Lemma Alloc_run (buf : list Z) (align : Z) fuel st :
  exists st1,
    dma.Alloc buf align fuel st
    = (Done (u32 (dma.align_up (brk st) align)), st1) /\
    trace st1
    = trace st ++ [EvAlloc (u32 (dma.align_up (brk st) align)) (len buf)] /\
    defers st1 = defers st.
Proof. eexists. split; [reflexivity|]. split; reflexivity. Qed.

Lemma with_defers_Done_inv {A : Type} (body : M A) fuel st r st' :
  with_defers body fuel st = (Done r, st') ->
  exists sb,
    body fuel (set_defers [] st) = (Done r, sb) /\
    world st' = world sb /\
    trace st' = trace sb ++ map EvFree (defers sb).
Proof.
  unfold with_defers. intros H.
  destruct (body fuel (set_defers [] st)) as [[a| |] sb]; try discriminate.
  injection H as <- <-. exists sb. split; [reflexivity|].
  split.
  - change (world (set_defers (defers st) (run_defers fuel sb)))
      with (world (run_defers fuel sb)).
    apply run_defers_world.
  - change (trace (set_defers (defers st) (run_defers fuel sb)))
      with (trace (run_defers fuel sb)).
    apply run_defers_trace.
Qed.

(** The course of a transfer that returns. *)
Lemma transfer_body_inv (hw : USB) (n dir : Z) ioc buf fuel st r st' :
  transfer_body hw n dir ioc buf fuel st = (Done r, st') ->
  let bytes := default [] (working_buf dir buf) in
  let pages := u32 (dma.align_up (brk st) DTD_PAGE_SIZE) in
  let pos := int (int (dir * 16) + n) in
  exists dtds size err sa sb sc sd,
    trace sa = trace st ++ [EvTransfer n dir ioc buf; EvAlloc pages (len bytes)] /\
    defers sa = pages :: defers st /\
    transfer_loop hw n dir ioc pages (len bytes) pos 0 None [] fuel sa
    = (Done dtds, sb) /\
    trace sc = trace sb /\ defers sc = defers sb /\
    checkDTD n dir dtds fuel sc = (Done (size, err), sd) /\
    copy_out n dir buf (working_buf dir buf) pages size err fuel sd
    = (Done r, st').
Proof.
  unfold transfer_body. intros H. cbv zeta.
  rewrite (bind_Done _ _ _ _ _ _ (emit_run _ _ _)) in H.
  fold (working_buf dir buf) in H.
  match type of H with
  | bind (dma.Alloc ?b ?al) _ fuel ?s = _ =>
      destruct (Alloc_run b al fuel s) as (s1 & Ha & T1 & D1)
  end.
  rewrite (bind_Done _ _ _ _ _ _ Ha) in H.
  rewrite (bind_Done _ _ _ _ _ _ (defer_Free_run _ _ _)) in H.
  cbn [brk trace defers] in *.
  apply bind_Done_inv in H. destruct H as (dtds & sb & Hl & H).
  apply bind_Done_inv in H. destruct H as ([] & s2 & Hw & H).
  pose proof (quiet_Done _ _ _ _ _ (quiet_Wait _ _ _ _) Hw) as [T2 D2].
  apply bind_Done_inv in H. destruct H as (e0 & s3 & Hc & H).
  pose proof (quiet_Done _ _ _ _ _ (quiet_await_completion _ _ _) Hc) as [T3 D3].
  apply bind_Done_inv in H. destruct H as ([] & sc & Hwr & H).
  pose proof (quiet_Done _ _ _ _ _ (quiet_Write _ _) Hwr) as [T4 D4].
  apply bind_Done_inv in H. destruct H as ([size err] & sd & Hk & H).
  exists dtds, size, err, (set_defers (u32 (dma.align_up (brk st) DTD_PAGE_SIZE) :: defers s1) s1), sb, sc, sd.
  split; [cbn [set_defers trace]; rewrite T1, <- app_assoc; reflexivity|].
  split; [cbn [set_defers defers]; rewrite D1; reflexivity|].
  split; [exact Hl|]. split; [congruence|]. split; [congruence|].
  split; [exact Hk|exact H].
Qed.

Lemma not_free_of_alloc_or_prime t :
  Forall is_alloc_or_prime t -> Forall (fun e => ~ is_free e) t.
Proof. intros H. eapply Forall_impl; [exact H|]. intros []; simpl; tauto. Qed.

Lemma not_free_of_token t :
  Forall is_token t -> Forall (fun e => ~ is_free e) t.
Proof. intros H. eapply Forall_impl; [exact H|]. intros []; simpl; tauto. Qed.

(** C9, as the code has it.  The frees are deferred to the return.  When
    [transfer] returns without error, the events of the call are: first
    everything else, among it for every descriptor built its allocation and
    a read of its token with the active bit clear; then, and only then, the
    frees of the descriptors and of the backing buffer. *)
Theorem transfer_frees_after_inactive (hw : USB) (n dir : Z) ioc buf fuel st
  out after st' :
  transfer hw n dir ioc buf fuel st = (Done (out, None, after), st') ->
  exists pages dtds pre,
    trace st'
    = trace st ++ pre ++ map EvFree (rev (map _dtd dtds) ++ [pages]) /\
    Forall (fun e => ~ is_free e) pre /\
    dtds <> [] /\
    Forall (fun d =>
              In (EvAlloc (_dtd d) DTD_SIZE) pre /\
              exists v, In (EvToken (u32 (_dtd d + DTD_TOKEN)) v) pre /\
                        Z.testbit v TOKEN_ACTIVE = false) dtds.
Proof.
  unfold transfer. intros H.
  apply with_defers_Done_inv in H. destruct H as (sb0 & Hb & _ & Htr).
  apply transfer_body_inv in Hb. cbv zeta in Hb.
  destruct Hb as (dtds & size & err & sa & sb & sc & sd & Ta & Da & Hl & Tc & Dc & Hk & Hc).
  apply copy_out_inv in Hc. destruct Hc as (-> & <- & _).
  apply transfer_loop_inv in Hl.
  destruct Hl as (new & tl & Hnew & Hne & Dl & Tl & Ql & Hin).
  cbn [app] in Hnew. subst new.
  unfold checkDTD in Hk. apply checkDTD_from_ok in Hk.
  destruct Hk as (toks & Tk & Dk & Qk & Hall).
  exists (u32 (dma.align_up (brk st) DTD_PAGE_SIZE)), dtds.
  exists ([EvTransfer n dir ioc buf;
           EvAlloc (u32 (dma.align_up (brk st) DTD_PAGE_SIZE))
                   (len (default [] (working_buf dir buf)))] ++ tl ++ toks).
  split; [|split; [|split]].
  - rewrite Htr, Dk, Dc, Dl, Da, Tk, Tc, Tl, Ta.
    cbn [set_defers defers]. rewrite <- !app_assoc. reflexivity.
  - apply Forall_app. split.
    + constructor; [simpl; tauto|]. constructor; [simpl; tauto|constructor].
    + apply Forall_app. split.
      * apply not_free_of_alloc_or_prime, Ql.
      * apply not_free_of_token, Qk.
  - exact Hne.
  - apply Forall_forall. intros d Hd.
    rewrite Forall_forall in Hin. rewrite Forall_forall in Hall.
    split.
    + apply in_or_app. right. apply in_or_app. left.
      apply Hin. exact Hd.
    + destruct (Hall d Hd) as (v & Hv & Hbit). exists v. split; [|exact Hbit].
      apply in_or_app. right. apply in_or_app. right. exact Hv.
Qed.


End TransferFacts.


(** C9, refuted as stated.  On endpoint 1, with a controller that never
    executes the descriptor and the loop of Start closing [hw.done], the
    cancelled waits return, [checkDTD] reads a token whose active bit is
    set and reports it as an error, and the deferred calls free the
    descriptor and its buffer: the bit is still set when the call is
    over. *)
Lemma transfer_cancel_counterexample :
  let r := transfer (P:=sim.cancelled) sim.hw 1 IN false (Some [1; 2; 3; 4])
                    1%nat sim.running in
  fst r = Done (None, Some (ErrStatus 0 0x40080), Some [1; 2; 3; 4]) /\
  trace (snd r)
  = [EvTransfer 1 IN false (Some [1; 2; 3; 4]);
     EvAlloc 0x00901000 4; EvAlloc 0x00901020 DTD_SIZE; EvPrime 17;
     EvToken (0x00901020 + DTD_TOKEN) 0x40080;
     EvFree 0x00901020; EvFree 0x00901000] /\
  Z.testbit 0x40080 TOKEN_ACTIVE = true /\
  reg.holds (0x00901020 + DTD_TOKEN) TOKEN_ACTIVE 1 1 (snd r) = true.
Proof. cbv zeta. repeat split; vm_compute; reflexivity. Qed.

(** ** The status phase of a send *)

Section StatusPhase.
Context {P : Platform}.

(** C7, as the code has it.  A send on endpoint 0 is followed by the
    status phase, an OUT transfer on endpoint 0 without a caller's buffer,
    exactly when the IN transfer returned without error; when the IN
    transfer fails, its error is returned and nothing follows. *)
Theorem tx_status_phase (hw : USB) ioc data fuel st :
  match transfer hw 0 IN ioc data fuel st with
  | (Done (_, None, _), st1) =>
      tx hw 0 ioc data fuel st
      = (let* (_, err, _) := transfer hw 0 OUT false None in ret err) fuel st1
      /\ exists t,
          trace (snd (tx hw 0 ioc data fuel st))
          = trace st1 ++ EvTransfer 0 OUT false None :: t
          /\ Forall is_engine t
  | (Done (_, Some e, _), st1) =>
      tx hw 0 ioc data fuel st = (Done (Some e), st1)
  | (Panic, st1) => tx hw 0 ioc data fuel st = (Panic, st1)
  | (Spin, st1) => tx hw 0 ioc data fuel st = (Spin, st1)
  end.
Proof.
  destruct (transfer hw 0 IN ioc data fuel st) as [[[[o [e|]] b]| |] st1] eqn:E.
  - unfold tx, bind. rewrite E. reflexivity.
  - split.
    + unfold tx, bind. rewrite E. change (0 =? 0) with true. reflexivity.
    + unfold tx, bind. rewrite E. change (0 =? 0) with true. cbv iota.
      destruct (transfer_trace hw 0 OUT false None fuel st1) as (t & Ht & HQ).
      exists t. split; [|exact HQ].
      destruct (transfer hw 0 OUT false None fuel st1)
        as [[[[o' e'] b']| |] st2]; exact Ht.
  - unfold tx, bind. rewrite E. reflexivity.
  - unfold tx, bind. rewrite E. reflexivity.
Qed.

End StatusPhase.

(** C7, refuted as stated.  With a controller that halts the descriptor,
    the IN transfer of a send on endpoint 0 fails with a status error, and
    [tx] returns it: the call enters one transfer, the IN one, and no OUT
    transfer follows. *)
Lemma tx_no_status_phase_counterexample :
  let r := tx (P:=sim.halting) sim.hw 0 false (Some [1; 2; 3; 4]) 1%nat
              sim.boot in
  fst r = Done (Some (ErrStatus 0 0x40040)) /\
  trace (snd r)
  = [EvTransfer 0 IN false (Some [1; 2; 3; 4]);
     EvAlloc 0x00901000 4; EvAlloc 0x00901020 DTD_SIZE; EvPrime 16;
     EvToken (0x00901020 + DTD_TOKEN) 0x40040;
     EvFree 0x00901020; EvFree 0x00901000].
Proof. cbv zeta. split; vm_compute; reflexivity. Qed.

(** ** The reload of the device-mode loop *)

Section ReloadFacts.
Context {P : Platform} {K : Consts}.
Variable startEndpoints : USB -> Device -> Z -> M unit.










End ReloadFacts.

(** ** The theorems at concrete inputs *)

(** Scenario 2 of the spec: GET_DESCRIPTOR(STRING, index=5) with three
    configured strings. *)
Lemma getDescriptor_string_out_of_range_witness :
  exists st',
    getDescriptor (P:=sim.good []) (K:=sim.consts) sim.hw sim.keyboard
                  sim.get_string_5 0%nat sim.boot
    = (Done (Some (ErrInvalidStringIndex 5)), st') /\
    trace st' = [EvStall 0 IN].
Proof.
  destruct (getDescriptor_string_out_of_range
              (P:=sim.good []) (K:=sim.consts) sim.hw sim.keyboard
              sim.get_string_5 0%nat sim.boot)
    as (st' & H1 & _ & H3 & _).
  - vm_compute. split; [discriminate|reflexivity].
  - reflexivity.
  - vm_compute. discriminate.
  - vm_compute. split; [discriminate|reflexivity].
  - exists st'. split; [exact H1|exact H3].
Defined.

(** A HID SET_IDLE packet (requestType 0x21) goes to the class-specific
    handler. *)
Lemma handleSetup_routes_on_0x21_witness :
  exists t,
    trace (snd (handleSetup (P:=sim.good []) (K:=sim.consts) sim.hw
                            sim.keyboard
                            (Some (mkSetupData 0x21 HID_SET_IDLE 0 0 0))
                            1%nat sim.boot))
    = trace sim.boot ++ EvClassSpecific (mkSetupData 0x21 HID_SET_IDLE 0 0 0) :: t
    /\ Forall (fun e => ~ is_handler e) t.
Proof.
  apply (handleSetup_routes_on_0x21 (P:=sim.good []) (K:=sim.consts) sim.hw
           sim.keyboard (mkSetupData 0x21 HID_SET_IDLE 0 0 0) 1%nat sim.boot).
  reflexivity.
Defined.




(** A send of four bytes on endpoint 0 that the controller completes. *)
Lemma transfer_frees_after_inactive_witness :
  exists pages dtds pre,
    trace (snd (transfer (P:=sim.good []) sim.hw 0 IN false (Some [1; 2; 3; 4])
                         1%nat sim.boot))
    = trace sim.boot ++ pre ++ map EvFree (rev (map _dtd dtds) ++ [pages]) /\
    Forall (fun e => ~ is_free e) pre /\
    dtds <> [] /\
    Forall (fun d =>
              In (EvAlloc (_dtd d) DTD_SIZE) pre /\
              exists v, In (EvToken (u32 (_dtd d + DTD_TOKEN)) v) pre /\
                        Z.testbit v TOKEN_ACTIVE = false) dtds.
Proof.
  apply (transfer_frees_after_inactive (P:=sim.good []) sim.hw 0 IN false
           (Some [1; 2; 3; 4]) 1%nat sim.boot None (Some [1; 2; 3; 4])).
  vm_compute. reflexivity.
Defined.


(** Scenario 4, run: the channel is closed, the task is joined, and the
    endpoints of configuration 2 are started with a fresh channel. *)
Lemma set_configuration_run :
  let r :=
    (let* (dev, _) := handleSetup (P:=sim.good []) (K:=sim.consts) sim.hw
                                  sim.keyboard (Some sim.set_configuration_2) in
     reload (P:=sim.good []) sim.startEndpoints sim.hw dev 1) 1%nat
      sim.running in
  fst r = Done 2 /\
  List.filter (fun e => match e with EvClose | EvJoin => true | _ => false end)
         (trace (snd r)) = [EvClose; EvJoin] /\
  done (world (snd r)) = ChanOpen /\ wg (world (snd r)) = 1%nat.
Proof. cbv zeta. repeat split; vm_compute; reflexivity. Qed.
